(** * pr_review.py: the PR reviewer command-line tool

    A shallow embedding of [src/pr_review.py], the properties its
    specification states about it, and further properties of the code.

    Conventions of the embedding.
    - A Python [str] is a [string]; each [ascii] of it stands for the
      code point of the same number, so the strings of the model are the
      Python strings over the first 256 code points.  On these, [\d]
      matches the ten ASCII digits only and [str.encode()] writes one or
      two bytes per character.
    - [bytes] are lists of numbers below 256.
    - Python integers are [Z].
    - A method that can raise returns a [result]; a method with effects is
      a function of the [state] of the process (see [M] below). *)

From Stdlib Require Import String Ascii List NArith ZArith Lia Bool.
From Stdlib Require Import DecimalString.
From Stdlib Require DecimalZ DecimalPos.
From stdpp Require Import gmap strings.
Import ListNotations.

(** ** Characters, bytes and numerals *)

Definition ord (c : ascii) : N := N_of_ascii c.
Definition chr (n : N) : ascii := ascii_of_N n.

Definition bytes := list N.

(** [str.encode()], that is UTF-8: one byte below U+0080, two from there
    to U+00FF. *)
Definition encode_char (c : ascii) : bytes :=
  let n := ord c in
  if (n <? 128)%N then [n]
  else [N.lor 192 (N.shiftr n 6); N.lor 128 (N.land n 63)].

Fixpoint encode (s : string) : bytes :=
  match s with
  | EmptyString => []
  | String c s' => encode_char c ++ encode s'
  end.

(** [str(n)] of an [int]. *)
Definition str_of_int (n : Z) : string :=
  NilZero.string_of_int (Z.to_int n).

(** One lower-case hexadecimal digit, as [hexdigest] and ['%04x'] write
    them. *)
Definition hex_digit (n : N) : ascii :=
  if (n <? 10)%N then chr (48 + n) else chr (87 + n).

Definition hex_byte (b : N) : string :=
  String (hex_digit (N.shiftr b 4)) (String (hex_digit (N.land b 15)) EmptyString).

Fixpoint hex_of_bytes (bs : bytes) : string :=
  match bs with
  | [] => EmptyString
  | b :: bs' => hex_byte b +:+ hex_of_bytes bs'
  end.

(** [s[:n]] *)
Fixpoint str_take (n : nat) (s : string) : string :=
  match n, s with
  | S n', String c s' => String c (str_take n' s')
  | _, _ => EmptyString
  end.

(** ** Methods of [str] *)

(** [s] starts with [p]: the rest of [s]. *)
Fixpoint strip_prefix (p s : string) : option string :=
  match p, s with
  | EmptyString, _ => Some s
  | String a p', String b s' => if Ascii.eqb a b then strip_prefix p' s' else None
  | String _ _, EmptyString => None
  end.

(** [str.isspace] of one character below U+0100. *)
Definition py_isspace (c : ascii) : bool :=
  let n := ord c in
  ((9 <=? n) && (n <=? 13) || (28 <=? n) && (n <=? 32) || (n =? 133) || (n =? 160))%N.

Fixpoint py_lstrip (s : string) : string :=
  match s with
  | String c s' => if py_isspace c then py_lstrip s' else s
  | EmptyString => s
  end.

Fixpoint py_rstrip (s : string) : string :=
  match s with
  | String c s' =>
      match py_rstrip s' with
      | EmptyString => if py_isspace c then EmptyString else String c EmptyString
      | r => String c r
      end
  | EmptyString => s
  end.

(** [s.strip()] *)
Definition py_strip (s : string) : string := py_rstrip (py_lstrip s).

(** [s.split(sep)[0]] for a non-empty [sep]: [s] up to the first [sep]. *)
Fixpoint before_first (sep s : string) : string :=
  match strip_prefix sep s with
  | Some _ => EmptyString
  | None =>
      match s with
      | String c s' => String c (before_first sep s')
      | EmptyString => EmptyString
      end
  end.

(** [s.replace(old, '')] for a non-empty [old]: the occurrences of [old]
    are taken out, from the left, without overlap.  [fuel] bounds the
    characters looked at. *)
Fixpoint remove_all (fuel : nat) (old s : string) : string :=
  match fuel with
  | O => s
  | S f =>
      match strip_prefix old s with
      | Some rest => remove_all f old rest
      | None =>
          match s with
          | String c s' => String c (remove_all f old s')
          | EmptyString => EmptyString
          end
      end
  end.

(** The strings of [l], each once, in the order they first come. *)
Fixpoint remove_dups (l : list string) : list string :=
  match l with
  | [] => []
  | x :: rest => x :: filter (fun y => negb (String.eqb x y)) (remove_dups rest)
  end.

(** [sep.join(l)] *)
Fixpoint py_join (sep : string) (l : list string) : string :=
  match l with
  | [] => EmptyString
  | [x] => x
  | x :: rest => x +:+ sep +:+ py_join sep rest
  end.

(** ** hashlib.sha256 (FIPS 180-4) *)

Module SHA256.
Local Open Scope N_scope.

Definition mask32 : N := 4294967295.
Definition add32 (x y : N) : N := N.land (x + y) mask32.
Definition rotr (n x : N) : N :=
  N.lor (N.shiftr x n) (N.land (N.shiftl x (32 - n)) mask32).
Definition not32 (x : N) : N := N.lxor x mask32.

Definition Ch (x y z : N) := N.lxor (N.land x y) (N.land (not32 x) z).
Definition Maj (x y z : N) :=
  N.lxor (N.lxor (N.land x y) (N.land x z)) (N.land y z).
Definition bsig0 (x : N) := N.lxor (N.lxor (rotr 2 x) (rotr 13 x)) (rotr 22 x).
Definition bsig1 (x : N) := N.lxor (N.lxor (rotr 6 x) (rotr 11 x)) (rotr 25 x).
Definition ssig0 (x : N) := N.lxor (N.lxor (rotr 7 x) (rotr 18 x)) (N.shiftr x 3).
Definition ssig1 (x : N) := N.lxor (N.lxor (rotr 17 x) (rotr 19 x)) (N.shiftr x 10).

(** The constants are what FIPS 180-4 says they are: the first 32 bits
    of the fractional parts of the cube roots of the first 64 primes,
    and of the square roots of the first 8 for the initial hash. *)
Definition is_prime (n : nat) : bool :=
  forallb (fun d => negb (Nat.eqb (Nat.modulo n d) 0)) (seq 2 (n - 2)).

Definition primes : list N := map N.of_nat (filter is_prime (seq 2 310)).

(** The integer cube root, by bisection between [lo] and [hi]. *)
Fixpoint cbrt_between (fuel : nat) (lo hi x : N) : N :=
  match fuel with
  | O => lo
  | S f =>
      let mid := (lo + hi) / 2 in
      if mid =? lo then lo
      else if mid * mid * mid <=? x then cbrt_between f mid hi x
      else cbrt_between f lo mid x
  end.

Definition frac32_cbrt (p : N) : N :=
  N.land (cbrt_between 64 0 (2 ^ 40) (p * 2 ^ 96)) mask32.

Definition frac32_sqrt (p : N) : N :=
  N.land (N.sqrt (p * 2 ^ 64)) mask32.

Definition K : list N := Eval vm_compute in map frac32_cbrt primes.

Definition H0 : list N := Eval vm_compute in map frac32_sqrt (firstn 8 primes).

(** Big-endian rendering of [x] on [n] bytes. *)
Fixpoint be_bytes (n : nat) (x : N) : bytes :=
  match n with
  | O => []
  | S n' => N.land (N.shiftr x (8 * N.of_nat n')) 255 :: be_bytes n' x
  end.

(** The message, the bit 1, zeros up to 56 modulo 64, and the length in
    bits on 8 bytes. *)
Definition pad (msg : bytes) : bytes :=
  let len := N.of_nat (length msg) in
  let zeros := N.to_nat ((119 - len mod 64) mod 64) in
  msg ++ 128 :: repeat 0 zeros ++ be_bytes 8 (8 * len).

Fixpoint words (fuel : nat) (bs : bytes) : list N :=
  match fuel, bs with
  | S f, a :: b :: c :: d :: rest =>
      (N.shiftl a 24 + N.shiftl b 16 + N.shiftl c 8 + d) :: words f rest
  | _, _ => []
  end.

(** The message schedule, most recent word first: [extend n w] adds
    W(t) for [n] more values of t, [w] holding W(t-1), W(t-2), ... *)
Fixpoint extend (n : nat) (w : list N) : list N :=
  match n with
  | O => w
  | S n' =>
      let wt :=
        add32 (add32 (add32 (ssig1 (nth 1 w 0)) (nth 6 w 0))
                     (ssig0 (nth 14 w 0)))
              (nth 15 w 0) in
      extend n' (wt :: w)
  end.

Definition schedule (block : list N) : list N :=
  rev (extend 48 (rev block)).

Record regs := Regs { ra : N; rb : N; rc : N; rd : N;
                      re : N; rf : N; rg : N; rh : N }.

Definition round (r : regs) (kw : N * N) : regs :=
  let '(k, w) := kw in
  let t1 := add32 (add32 (add32 (add32 (rh r) (bsig1 (re r)))
                                (Ch (re r) (rf r) (rg r))) k) w in
  let t2 := add32 (bsig0 (ra r)) (Maj (ra r) (rb r) (rc r)) in
  Regs (add32 t1 t2) (ra r) (rb r) (rc r) (add32 (rd r) t1) (re r) (rf r) (rg r).

Definition regs_of (h : list N) : regs :=
  Regs (nth 0 h 0) (nth 1 h 0) (nth 2 h 0) (nth 3 h 0)
       (nth 4 h 0) (nth 5 h 0) (nth 6 h 0) (nth 7 h 0).

Definition compress (h : list N) (block : list N) : list N :=
  let r0 := regs_of h in
  let r := fold_left round (combine K (schedule block)) r0 in
  [ add32 (ra r0) (ra r); add32 (rb r0) (rb r); add32 (rc r0) (rc r);
    add32 (rd r0) (rd r); add32 (re r0) (re r); add32 (rf r0) (rf r);
    add32 (rg r0) (rg r); add32 (rh r0) (rh r) ].

Fixpoint blocks (fuel : nat) (h : list N) (bs : bytes) : list N :=
  match fuel with
  | O => h
  | S f =>
      match bs with
      | [] => h
      | _ => blocks f (compress h (words 16 (firstn 64 bs))) (skipn 64 bs)
      end
  end.

Definition digest (msg : bytes) : bytes :=
  let p := pad msg in
  flat_map (be_bytes 4) (blocks (length p) H0 p).

Definition hexdigest (msg : bytes) : string := hex_of_bytes (digest msg).
End SHA256.

(** ** Python values and exceptions *)

(** A float as [json.loads] reads it: the literal's sign, digits and
    decimal exponent, or one of the three constants Python accepts. *)
Inductive float_lit :=
| FNaN
| FInf (negative : bool)
| FDec (negative : bool) (digits : N) (exp10 : Z).

(** The values [json.loads] builds, which are also the values a review,
    a PR record and a file list take in the program.  A [dict] keeps its
    pairs in the order read; a later pair with the same key wins. *)
#[warnings="-register-all"]
Inductive json :=
| JNull
| JBool (b : bool)
| JInt (n : Z)
| JFloat (f : float_lit)
| JStr (s : string)
| JList (l : list json)
| JDict (kv : list (string * json)).

(** Exceptions the program meets.  [SystemExit] is not an [Exception]:
    an [except Exception] lets it through.  [Unmodelled] is no Python
    exception: it marks a step this embedding does not follow (a
    character above U+00FF, the [repr] of a float or of a container); no
    handler catches it, and no theorem below rests on a run that meets
    it. *)
Inductive exn :=
| SystemExit (code : Z)
| ValueError (msg : string)
| KeyError (key : string)
| TypeError
| AttributeError
| JSONDecodeError
| FileNotFoundError (what : string)
| CalledProcessError (stderr : string)
| OtherException (what : string)
| Unmodelled.

Definition is_Exception (e : exn) : bool :=
  match e with SystemExit _ | Unmodelled => false | _ => true end.

Inductive result (A : Type) :=
| Ok (a : A)
| Raise (e : exn).
Arguments Ok {A} a.
Arguments Raise {A} e.

(** [bool(v)]: what [if v:] tests.  A float is false when it is zero,
    which for a decimal literal means it rounds to zero: it is at most
    half the least positive double, 2^-1075. *)
Definition float_truthy (f : float_lit) : bool :=
  match f with
  | FNaN | FInf _ => true
  | FDec _ m e =>
      if (0 <=? e)%Z then negb (m =? 0)%N
      else (10 ^ Z.to_N (- e) <? m * 2 ^ 1075)%N
  end.

Definition truthy (v : json) : bool :=
  match v with
  | JNull => false
  | JBool b => b
  | JInt n => negb (n =? 0)%Z
  | JFloat f => float_truthy f
  | JStr s => negb (String.eqb s "")
  | JList l => match l with [] => false | _ => true end
  | JDict kv => match kv with [] => false | _ => true end
  end.

(** Lookup in a [dict]: the last pair with the key. *)
Fixpoint dict_lookup (key : string) (kv : list (string * json)) : option json :=
  match kv with
  | [] => None
  | (k, v) :: rest =>
      match dict_lookup key rest with
      | Some v' => Some v'
      | None => if String.eqb k key then Some v else None
      end
  end.

(** [v[key]] with a string key. *)
Definition subscript (v : json) (key : string) : result json :=
  match v with
  | JDict kv =>
      match dict_lookup key kv with
      | Some x => Ok x
      | None => Raise (KeyError key)
      end
  | _ => Raise TypeError
  end.

(** [v.get(key, default)]: only a [dict] has the method. *)
Definition py_get (v : json) (key : string) (default : json) : result json :=
  match v with
  | JDict kv =>
      match dict_lookup key kv with
      | Some x => Ok x
      | None => Ok default
      end
  | _ => Raise AttributeError
  end.

(** [f'{v}']: the text an f-string puts for [v]. *)
Definition py_format (v : json) : result string :=
  match v with
  | JStr s => Ok s
  | JInt n => Ok (str_of_int n)
  | JNull => Ok "None"
  | JBool true => Ok "True"
  | JBool false => Ok "False"
  | JFloat _ | JList _ | JDict _ => Raise Unmodelled
  end.

(** ** The json module *)

Module Json.

Definition quote : ascii := chr 34.
Definition backslash : ascii := chr 92.
Definition newline : ascii := chr 10.

Definition code_is (c : ascii) (n : N) : bool := (ord c =? n)%N.
Definition code_in (c : ascii) (lo hi : N) : bool :=
  ((lo <=? ord c) && (ord c <=? hi))%N.

(** *** Encoding *)

(** [py_encode_basestring_ascii]: the two-character escapes of
    [ESCAPE_DCT], the printable ASCII characters as they are, and [\u]
    with four hexadecimal digits for every other character. *)
Definition u_escape (n : N) : string :=
  String backslash (String "u"
    (String (hex_digit (N.land (N.shiftr n 12) 15))
    (String (hex_digit (N.land (N.shiftr n 8) 15))
    (String (hex_digit (N.land (N.shiftr n 4) 15))
    (String (hex_digit (N.land n 15)) ""))))).

Definition escape_char (c : ascii) : string :=
  if code_is c 34 then String backslash (String quote "")
  else if code_is c 92 then String backslash (String backslash "")
  else if code_is c 10 then String backslash "n"
  else if code_is c 13 then String backslash "r"
  else if code_is c 9 then String backslash "t"
  else if code_is c 8 then String backslash "b"
  else if code_is c 12 then String backslash "f"
  else if code_in c 32 126 then String c ""
  else u_escape (ord c).

Fixpoint escape (s : string) : string :=
  match s with
  | EmptyString => ""
  | String c s' => escape_char c +:+ escape s'
  end.

Definition encode_basestring_ascii (s : string) : string :=
  String quote (escape s +:+ String quote "").

(** [json.dumps({key: value}, indent=2)] for a string [value]: the
    braces on lines of their own, the one member indented by two. *)
Definition dumps_member_indent2 (key value : string) : string :=
  "{" +:+ String newline ("  " +:+ encode_basestring_ascii key +:+ ": "
      +:+ encode_basestring_ascii value +:+ String newline "}").

(** *** Decoding *)

Definition is_ws (c : ascii) : bool :=
  code_is c 32 || code_is c 9 || code_is c 10 || code_is c 13.

Fixpoint skip_ws (s : string) : string :=
  match s with
  | String c s' => if is_ws c then skip_ws s' else s
  | EmptyString => s
  end.

Definition is_digit (c : ascii) : bool := code_in c 48 57.

Definition hex_value (c : ascii) : option N :=
  if code_in c 48 57 then Some (ord c - 48)%N
  else if code_in c 97 102 then Some (ord c - 87)%N
  else if code_in c 65 70 then Some (ord c - 55)%N
  else None.

Definition hex4 (a b c d : ascii) : option N :=
  match hex_value a, hex_value b, hex_value c, hex_value d with
  | Some x, Some y, Some z, Some w => Some (4096 * x + 256 * y + 16 * z + w)%N
  | _, _, _, _ => None
  end.

(** The [BACKSLASH] table of the decoder. *)
Definition unescape (e : ascii) : option ascii :=
  if code_is e 34 then Some quote
  else if code_is e 92 then Some backslash
  else if code_is e 47 then Some "/"%char
  else if code_is e 98 then Some (chr 8)
  else if code_is e 102 then Some (chr 12)
  else if code_is e 110 then Some (chr 10)
  else if code_is e 114 then Some (chr 13)
  else if code_is e 116 then Some (chr 9)
  else None.

Definition cons_str (c : ascii) (r : result (string * string)) : result (string * string) :=
  match r with
  | Ok (s, rest) => Ok (String c s, rest)
  | Raise e => Raise e
  end.

(** [scanstring] in strict mode, started after the opening quote: the
    string read and the text after its closing quote. *)
Fixpoint scanstring (s : string) : result (string * string) :=
  match s with
  | EmptyString => Raise JSONDecodeError
  | String c rest =>
      if code_is c 34 then Ok ("", rest)
      else if code_is c 92 then
        match rest with
        | EmptyString => Raise JSONDecodeError
        | String e rest1 =>
            if code_is e 117 then
              match rest1 with
              | String h1 (String h2 (String h3 (String h4 rest2))) =>
                  match hex4 h1 h2 h3 h4 with
                  | Some n =>
                      if (n <? 256)%N then cons_str (chr n) (scanstring rest2)
                      else Raise Unmodelled
                  | None => Raise JSONDecodeError
                  end
              | _ => Raise JSONDecodeError
              end
            else
              match unescape e with
              | Some ch => cons_str ch (scanstring rest1)
              | None => Raise JSONDecodeError
              end
        end
      else if (ord c <? 32)%N then Raise JSONDecodeError
      else cons_str c (scanstring rest)
  end.

(** [0-9]* read into [acc]; also the number of digits read. *)
Fixpoint digits (s : string) (acc : N) (count : nat) : N * nat * string :=
  match s with
  | String c s' =>
      if is_digit c then digits s' (10 * acc + (ord c - 48))%N (S count)
      else (acc, count, s)
  | EmptyString => (acc, count, s)
  end.

(** [NUMBER_RE]: an optional minus sign, then 0 or a digit string that
    does not start with 0; an optional fraction, a dot and digits; an
    optional exponent, e or E, an optional sign and digits.  Each part
    comes with the text after it. *)
Definition scan_sign (s : string) : bool * string :=
  match s with
  | String c r => if code_is c 45 then (true, r) else (false, s)
  | EmptyString => (false, s)
  end.

Definition scan_int (s : string) : option (N * string) :=
  match s with
  | String c r =>
      if code_is c 48 then Some (0%N, r)
      else if code_in c 49 57 then
        let '(n, _, r') := digits s 0 0 in Some (n, r')
      else None
  | EmptyString => None
  end.

(** The digits of the fraction go on those of the integer part, [n];
    their number is kept. *)
Definition scan_frac (n : N) (s : string) : option (N * nat) * string :=
  match s with
  | String c r =>
      if code_is c 46 then
        let '(m, k, r') := digits r n 0 in
        match k with O => (None, s) | S _ => (Some (m, k), r') end
      else (None, s)
  | EmptyString => (None, s)
  end.

Definition scan_exp (s : string) : option Z * string :=
  match s with
  | String c r =>
      if code_is c 101 || code_is c 69 then
        let '(negative, r1) :=
          match r with
          | String sg r' =>
              if code_is sg 45 then (true, r')
              else if code_is sg 43 then (false, r')
              else (false, r)
          | EmptyString => (false, r)
          end in
        let '(e, k, r2) := digits r1 0 0 in
        match k with
        | O => (None, s)
        | S _ => (Some (if negative then (- Z.of_N e)%Z else Z.of_N e), r2)
        end
      else (None, s)
  | EmptyString => (None, s)
  end.

(** The number at the start of [s]: an [int] when there is neither
    fraction nor exponent, else a float. *)
Definition scan_number (s : string) : option (json * string) :=
  let '(negative, s1) := scan_sign s in
  match scan_int s1 with
  | None => None
  | Some (n, s2) =>
      let '(frac, s3) := scan_frac n s2 in
      let '(exp, s4) := scan_exp s3 in
      match frac, exp with
      | None, None => Some (JInt (if negative then (- Z.of_N n)%Z else Z.of_N n), s4)
      | _, _ =>
          let '(m, k) := match frac with Some mk => mk | None => (n, O) end in
          let e := match exp with Some e => e | None => 0%Z end in
          Some (JFloat (FDec negative m (e - Z.of_nat k)), s4)
      end
  end.

Definition scan_constant (s : string) : option (json * string) :=
  match strip_prefix "null" s with
  | Some r => Some (JNull, r)
  | None =>
  match strip_prefix "true" s with
  | Some r => Some (JBool true, r)
  | None =>
  match strip_prefix "false" s with
  | Some r => Some (JBool false, r)
  | None =>
  match scan_number s with
  | Some x => Some x
  | None =>
  match strip_prefix "NaN" s with
  | Some r => Some (JFloat FNaN, r)
  | None =>
  match strip_prefix "Infinity" s with
  | Some r => Some (JFloat (FInf false), r)
  | None =>
  match strip_prefix "-Infinity" s with
  | Some r => Some (JFloat (FInf true), r)
  | None => None
  end end end end end end end.

(** [scan_once], [JSONObject] and [JSONArray].  [fuel] bounds the depth
    of the calls; [loads] gives more than the text can use (see
    [loads_fuel] below).  The members and elements read so far are kept
    latest first. *)
Fixpoint scan_once (fuel : nat) (s : string) : result (json * string) :=
  match fuel with
  | O => Raise Unmodelled
  | S f =>
      match s with
      | EmptyString => Raise JSONDecodeError
      | String c r =>
          if code_is c 34 then
            match scanstring r with
            | Ok (x, rest) => Ok (JStr x, rest)
            | Raise e => Raise e
            end
          else if code_is c 123 then
            match skip_ws r with
            | String c1 r1 =>
                if code_is c1 125 then Ok (JDict [], r1)
                else if code_is c1 34 then members f r1 []
                else Raise JSONDecodeError
            | EmptyString => Raise JSONDecodeError
            end
          else if code_is c 91 then
            match skip_ws r with
            | String c1 r1 =>
                if code_is c1 93 then Ok (JList [], r1)
                else elements f (skip_ws r) []
            | EmptyString => Raise JSONDecodeError
            end
          else
            match scan_constant s with
            | Some x => Ok x
            | None => Raise JSONDecodeError
            end
      end
  end

(** The members of an object, from after the opening quote of a key. *)
with members (fuel : nat) (s : string) (acc : list (string * json))
  : result (json * string) :=
  match fuel with
  | O => Raise Unmodelled
  | S f =>
      match scanstring s with
      | Raise e => Raise e
      | Ok (key, s1) =>
          match skip_ws s1 with
          | String c s2 =>
              if code_is c 58 then
                match scan_once f (skip_ws s2) with
                | Raise e => Raise e
                | Ok (v, s3) =>
                    match skip_ws s3 with
                    | String d s4 =>
                        if code_is d 125 then Ok (JDict (rev ((key, v) :: acc)), s4)
                        else if code_is d 44 then
                          match skip_ws s4 with
                          | String q s5 =>
                              if code_is q 34 then members f s5 ((key, v) :: acc)
                              else Raise JSONDecodeError
                          | EmptyString => Raise JSONDecodeError
                          end
                        else Raise JSONDecodeError
                    | EmptyString => Raise JSONDecodeError
                    end
                end
              else Raise JSONDecodeError
          | EmptyString => Raise JSONDecodeError
          end
      end
  end

(** The elements of an array, from the first character of one. *)
with elements (fuel : nat) (s : string) (acc : list json)
  : result (json * string) :=
  match fuel with
  | O => Raise Unmodelled
  | S f =>
      match scan_once f s with
      | Raise e => Raise e
      | Ok (v, s1) =>
          match skip_ws s1 with
          | String d s2 =>
              if code_is d 93 then Ok (JList (rev (v :: acc)), s2)
              else if code_is d 44 then elements f (skip_ws s2) (v :: acc)
              else Raise JSONDecodeError
          | EmptyString => Raise JSONDecodeError
          end
      end
  end.

(** [json.loads] with the fuel to give: one value, white space around
    it, nothing else. *)
Definition loads_with (fuel : nat) (s : string) : result json :=
  match scan_once fuel (skip_ws s) with
  | Raise e => Raise e
  | Ok (v, rest) =>
      match skip_ws rest with
      | EmptyString => Ok v
      | String _ _ => Raise JSONDecodeError
      end
  end.

(** [json.loads] *)
Definition loads (s : string) : result json :=
  loads_with (S (2 * String.length s)) s.

End Json.

(** ** The re module, as far as the pattern of [parse_pr_url] goes *)

Module Re.

(** A set of characters: one character, every character but one, [\d]. *)
Inductive cclass :=
| COne (c : ascii)
| CNot (c : ascii)
| CDigit.

Definition cmatch (k : cclass) (c : ascii) : bool :=
  match k with
  | COne a => Ascii.eqb c a
  | CNot a => negb (Ascii.eqb c a)
  | CDigit => Json.code_in c 48 57
  end.

(** Patterns: one character of a set, one or more of them (greedy), a
    sequence, a capturing group.  Groups are not nested here, so they
    close in the order they are numbered. *)
Inductive regex :=
| Eps
| Chr (k : cclass)
| Plus (k : cclass)
| Seq (r1 r2 : regex)
| Group (r : regex).

(** A literal text: its characters in sequence. *)
Fixpoint lit (p : string) : regex :=
  match p with
  | EmptyString => Eps
  | String c p' => Seq (Chr (COne c)) (lit p')
  end.

(** What was read between [s] and its suffix [s']. *)
Definition consumed (s s' : string) : string :=
  str_take (String.length s - String.length s') s.

(** [k+] then [cont]: the longest run first, then shorter ones. *)
Fixpoint plus_match {R} (k : cclass) (s : string) (cont : string -> option R)
  : option R :=
  match s with
  | String c s' =>
      if cmatch k c then
        match plus_match k s' cont with
        | Some x => Some x
        | None => cont s'
        end
      else None
  | EmptyString => None
  end.

(** The backtracking matcher: [r] at the start of [s], then [cont] on
    the rest and the groups closed so far. *)
Fixpoint rmatch {R} (r : regex) (s : string) (caps : list string)
    (cont : string -> list string -> option R) : option R :=
  match r with
  | Eps => cont s caps
  | Chr k =>
      match s with
      | String c s' => if cmatch k c then cont s' caps else None
      | EmptyString => None
      end
  | Plus k => plus_match k s (fun s' => cont s' caps)
  | Seq r1 r2 => rmatch r1 s caps (fun s' caps' => rmatch r2 s' caps' cont)
  | Group r1 => rmatch r1 s caps (fun s' caps' => cont s' (caps' ++ [consumed s s']))
  end.

(** [re.match(r, s)]: the groups of a match at the start of [s]; what
    follows the match is not looked at. *)
Definition re_match (r : regex) (s : string) : option (list string) :=
  rmatch r s [] (fun _ caps => Some caps).

End Re.

(** ** PRReviewer.parse_pr_url *)

(** [r'https://github\.com/([^/]+)/([^/]+)/pull/(\d+)'] *)
Definition pattern : Re.regex :=
  Re.Seq (Re.lit "https://github.com/")
  (Re.Seq (Re.Group (Re.Plus (Re.CNot "/")))
  (Re.Seq (Re.lit "/")
  (Re.Seq (Re.Group (Re.Plus (Re.CNot "/")))
  (Re.Seq (Re.lit "/pull/")
          (Re.Group (Re.Plus Re.CDigit)))))).

Definition parse_pr_url (url : string) : result (string * string * string) :=
  match Re.re_match pattern url with
  | None => Raise (ValueError ("Invalid GitHub PR URL: " +:+ url))
  | Some groups => Ok (nth 0 groups "", nth 1 groups "", nth 2 groups "")
  end.

(** ** The process and what is around it *)

(** What [console.print] is given: a text (its markup included), a
    value, or a text with the [str] of an exception in it. *)
Inductive message :=
| Text (s : string)
| Shown (v : json)
| ErrorText (before : string) (e : exn) (after : string).

(** What the process does that can be seen from outside it, besides
    what it leaves in the file system: a [console.print], a
    [subprocess.run], a request to the completion service, and the
    [add_task] and [update] of the progress display. *)
Inductive event :=
| Print (m : message)
| Run (argv : list string)
| Completion (model system user : string)
| TaskAdded (description : string)
| TaskUpdated (description : string).

(** The state of a run: the directories of the working directory, by
    name, each with its regular files, by name; and the events so far,
    in order.  Nothing else is in the file system of the model: no
    permissions, no links, no file where a directory is looked for. *)
Record state := State {
  fs : gmap string (gmap string string);
  log : list event
}.

(** A finished [gh] process. *)
Record proc := Proc { returncode : Z; stdout : string; stderr : string }.

(** What a run finds around it and does not change.
    - [environ]: [os.environ].
    - [gh]: what [subprocess.run] of an argument list comes to, [None]
      when there is no such program.
    - [completion]: what [chat.completions.create] followed by
      [.choices[0].message.content] comes to for a system and a user
      message, a text or an exception.
    - [prompt_file]: [None] when gemini_prompt.yaml is missing, else
      what [yaml.safe_load] followed by [['prompt']] comes to. *)
Record World := {
  environ : gmap string string;
  gh : state -> list string -> option proc;
  completion : state -> string -> string -> result string;
  prompt_file : option (result string)
}.

Definition M (A : Type) : Type := state -> result A * state.

#[global] Instance M_ret : MRet M := fun A a st => (Ok a, st).
#[global] Instance M_bind : MBind M := fun A B f m st =>
  match m st with
  | (Ok a, st') => f a st'
  | (Raise e, st') => (Raise e, st')
  end.

Definition raise {A} (e : exn) : M A := fun st => (Raise e, st).

(** What the state, left as it is, gives. *)
Definition ask {A} (f : state -> result A) : M A := fun st => (f st, st).

Definition lift {A} (r : result A) : M A := ask (fun _ => r).

(** [sys.exit(code)] *)
Definition sys_exit {A} (code : Z) : M A := raise (SystemExit code).

(** [try: m  except ...: ...], the handler chosen by the exception. *)
Definition handle {A} (m : M A) (h : exn -> option (M A)) : M A := fun st =>
  match m st with
  | (Raise e, st') =>
      match h e with
      | Some k => k st'
      | None => (Raise e, st')
      end
  | done => done
  end.

(** [try: m  except Exception as e: h e] *)
Definition try_except {A} (m : M A) (h : exn -> M A) : M A :=
  handle m (fun e => if is_Exception e then Some (h e) else None).

Definition emit (e : event) : M unit := fun st =>
  (Ok tt, State (fs st) (log st ++ [e])).

Definition console_print (m : message) : M unit := emit (Print m).

(** *** Files *)

(** A name of a directory entry: no separator, no NUL.  Another name
    would lead outside the directories of the model. *)
Definition is_filename (s : string) : bool :=
  forallb (fun c => negb (Json.code_is c 47 || Json.code_is c 0)) (list_ascii_of_string s).

(** [Path(d).mkdir(exist_ok=True)] in the working directory. *)
Definition mkdir_exist_ok (d : string) : M unit := fun st =>
  if is_filename d then
    match fs st !! d with
    | Some _ => (Ok tt, st)
    | None => (Ok tt, State (<[d := ∅]> (fs st)) (log st))
    end
  else (Raise Unmodelled, st).

(** [(Path(d) / name).exists()] *)
Definition path_exists (d name : string) : M bool := ask (fun st =>
  match fs st !! d with
  | Some files => Ok (bool_decide (is_Some (files !! name)))
  | None => Ok false
  end).

(** [open(Path(d) / name, 'w')] and the writing of [content]: the file
    is made, or made anew, when its directory is there. *)
Definition write_file (d name content : string) : M unit := fun st =>
  if is_filename name then
    match fs st !! d with
    | Some files => (Ok tt, State (<[d := <[name := content]> files]> (fs st)) (log st))
    | None => (Raise (FileNotFoundError (d +:+ "/" +:+ name)), st)
    end
  else (Raise Unmodelled, st).

(** [open(Path(d) / name).read()] *)
Definition read_file (d name : string) : M string := ask (fun st =>
  match fs st !! d with
  | Some files =>
      match files !! name with
      | Some content => Ok content
      | None => Raise (FileNotFoundError (d +:+ "/" +:+ name))
      end
  | None => Raise (FileNotFoundError (d +:+ "/" +:+ name))
  end).

(** [(Path(d) / name).unlink()] *)
Definition unlink (d name : string) : M unit := fun st =>
  match fs st !! d with
  | Some files =>
      match files !! name with
      | Some _ => (Ok tt, State (<[d := delete name files]> (fs st)) (log st))
      | None => (Raise (FileNotFoundError (d +:+ "/" +:+ name)), st)
      end
  | None => (Raise (FileNotFoundError (d +:+ "/" +:+ name)), st)
  end.

(** ** class PRReviewer *)

Record Client := { base_url : string; api_key : string }.

Record PRReviewer := { cache_dir : string; client : Client }.

(** The [dict] that [fetch_pr_data] builds and the other methods read:
    always the keys 'pr', 'diff' and 'files'. *)
Record PRData := { pr : json; diff : string; files : json }.

(** *** get_cache_key *)

Definition get_cache_key (pr_data : PRData) : result string :=
  let diff_hash := SHA256.hexdigest (encode (diff pr_data)) in
  match subscript (pr pr_data) "number" with
  | Raise e => Raise e
  | Ok number =>
      match py_format number with
      | Raise e => Raise e
      | Ok n => Ok ("pr_" +:+ n +:+ "_" +:+ str_take 8 diff_hash)
      end
  end.

Section Program.

Variable W : World.

(** *** __init__ *)

Definition __init__ (cache_dir : string) : M PRReviewer :=
  mkdir_exist_ok cache_dir;;
  let base_url := environ W !! "OPENAI_BASE_URL" in
  if negb (match base_url with Some u => negb (String.eqb u "") | None => false end) then
    console_print (Text "[red]Error: OPENAI_BASE_URL environment variable must be set[/red]");;
    console_print (Text "[yellow]Example: export OPENAI_BASE_URL=https://api.openai.com/v1[/yellow]");;
    sys_exit 1
  else
    let api_key := default "dummy" (environ W !! "OPENAI_API_KEY") in
    mret {| cache_dir := cache_dir;
            client := {| base_url := default "" base_url; api_key := api_key |} |}.

(** *** run_gh_command *)

(** [subprocess.run(argv, capture_output=True, text=True, check=True)] *)
Definition subprocess_run (argv : list string) : M proc :=
  emit (Run argv);;
  ask (fun st =>
         match gh W st argv with
         | None => Raise (FileNotFoundError "gh")
         | Some p =>
             if (returncode p =? 0)%Z then Ok p
             else Raise (CalledProcessError (stderr p))
         end).

Definition run_gh_command (cmd : list string) : M string :=
  handle
    (result ← subprocess_run ("gh" :: cmd);
     mret (py_strip (stdout result)))
    (fun e =>
       match e with
       | CalledProcessError e_stderr =>
           Some (console_print (Text ("[red]Error running gh command: " +:+ e_stderr +:+ "[/red]"));;
                 sys_exit 1)
       | _ => None
       end).

(** *** fetch_pr_data *)

Definition fetch_pr_data (owner repo pr_number : string) : M PRData :=
  console_print (Text ("[cyan]Fetching PR data for " +:+ owner +:+ "/" +:+ repo
                       +:+ "#" +:+ pr_number +:+ "[/cyan]"));;
  pr_json ← run_gh_command
    ["pr"; "view"; pr_number; "--repo"; owner +:+ "/" +:+ repo;
     "--json"; "title,body,number,url,author"];
  pr_data ← lift (Json.loads pr_json);
  diff ← run_gh_command ["pr"; "diff"; pr_number; "--repo"; owner +:+ "/" +:+ repo];
  files_json ← run_gh_command
    ["pr"; "view"; pr_number; "--repo"; owner +:+ "/" +:+ repo; "--json"; "files"];
  files_data ← lift (Json.loads files_json);
  files ← lift (py_get files_data "files" (JList []));
  mret {| pr := pr_data; diff := diff; files := files |}.

(** *** load_prompt *)

Definition load_prompt : M string :=
  match prompt_file W with
  | None =>
      console_print (Text "[red]Error: gemini_prompt.yaml not found[/red]");;
      sys_exit 1
  | Some data => lift data
  end.

(** *** save_cache and load_cache *)

Definition save_cache (self : PRReviewer) (cache_key review : string) : M unit :=
  write_file (cache_dir self) (cache_key +:+ ".json")
             (Json.dumps_member_indent2 "review" review).

Definition load_cache (self : PRReviewer) (cache_key : string) : M json :=
  let cache_file := cache_key +:+ ".json" in
  found ← path_exists (cache_dir self) cache_file;
  if (found : bool) then
    text ← read_file (cache_dir self) cache_file;
    data ← lift (Json.loads text);
    lift (py_get data "review" JNull)
  else mret JNull.

(** *** review_pr *)

(** [for f in v]: the elements of a list, the keys of a [dict], the
    characters of a [str]. *)
Definition py_iter (v : json) : result (list json) :=
  match v with
  | JList l => Ok l
  | JDict kv => Ok (map JStr (remove_dups (map fst kv)))
  | JStr s => Ok (map (fun c => JStr (String c "")) (list_ascii_of_string s))
  | _ => Raise TypeError
  end.

(** [f.get('path', f.get('filename', 'unknown'))] *)
Definition file_path (f : json) : result json :=
  match py_get f "filename" (JStr "unknown") with
  | Raise e => Raise e
  | Ok other => py_get f "path" other
  end.

(** ['\n'.join(l)]: every item has to be a [str]. *)
Fixpoint all_str (l : list json) : result (list string) :=
  match l with
  | [] => Ok []
  | JStr s :: rest =>
      match all_str rest with
      | Ok ss => Ok (s :: ss)
      | Raise e => Raise e
      end
  | _ :: _ => Raise TypeError
  end.

Fixpoint map_result {A B} (f : A -> result B) (l : list A) : result (list B) :=
  match l with
  | [] => Ok []
  | x :: rest =>
      match f x with
      | Raise e => Raise e
      | Ok y =>
          match map_result f rest with
          | Ok ys => Ok (y :: ys)
          | Raise e => Raise e
          end
      end
  end.

Definition files_info_of (files : json) : result string :=
  match py_iter files with
  | Raise e => Raise e
  | Ok fs =>
      match map_result file_path fs with
      | Raise e => Raise e
      | Ok paths =>
          match all_str paths with
          | Raise e => Raise e
          | Ok ss => Ok (py_join (String Json.newline "") ss)
          end
      end
  end.

(** [pr_info.get('url', '').split('/pull/')[0].replace('https://github.com/', '')] *)
Definition repo_url_of (pr_info : json) : result string :=
  match py_get pr_info "url" (JStr "") with
  | Raise e => Raise e
  | Ok (JStr url) =>
      let head := before_first "/pull/" url in
      Ok (remove_all (S (String.length head)) "https://github.com/" head)
  | Ok _ => Raise AttributeError
  end.

Definition user_message_of (pr_data : PRData) (files_info repo_url : string)
  : result string :=
  let pr_info := pr pr_data in
  let nl := String Json.newline "" in
  match subscript pr_info "number" with
  | Raise e => Raise e
  | Ok number =>
  match py_format number with
  | Raise e => Raise e
  | Ok number =>
  match subscript pr_info "title" with
  | Raise e => Raise e
  | Ok title =>
  match py_format title with
  | Raise e => Raise e
  | Ok title =>
  match py_get pr_info "body" (JStr "") with
  | Raise e => Raise e
  | Ok body =>
  match py_format body with
  | Raise e => Raise e
  | Ok body =>
      Ok (nl +:+ "Repository: " +:+ repo_url +:+ nl
          +:+ "Pull Request Number: " +:+ number +:+ nl
          +:+ "Title: " +:+ title +:+ nl
          +:+ "Body: " +:+ body +:+ nl
          +:+ nl
          +:+ "Files Changed:" +:+ nl
          +:+ files_info +:+ nl
          +:+ nl
          +:+ "Diff:" +:+ nl
          +:+ diff pr_data +:+ nl)
  end end end end end end.

(** [self.client.chat.completions.create(model=..., messages=[system,
    user])] and [.choices[0].message.content] of the response. *)
Definition chat_completions_create (model system user : string) : M string :=
  emit (Completion model system user);;
  ask (fun st => completion W st system user).

Definition review_pr (self : PRReviewer) (pr_data : PRData) : M string :=
  prompt ← load_prompt;
  files_info ← lift (files_info_of (files pr_data));
  let system_message := prompt in
  repo_url ← lift (repo_url_of (pr pr_data));
  user_message ← lift (user_message_of pr_data files_info repo_url);
  console_print (Text "[cyan]Sending PR for review...[/cyan]");;
  try_except
    (chat_completions_create "google:gemini-2.5-pro" system_message user_message)
    (fun e =>
       console_print (ErrorText "[red]Error calling AI service: " e "[/red]");;
       sys_exit 1).

(** *** post_review *)

(** [f.write(review)] takes a [str] only; the file is open, and so made
    or emptied, by the time another value is refused.  The check mark at
    the head of the success message, a character above U+00FF, is left
    out. *)
Definition post_review (self : PRReviewer) (owner repo pr_number : string)
    (review : json) : M unit :=
  console_print (Text "[cyan]Posting review to GitHub...[/cyan]");;
  let temp_file := "review_" +:+ pr_number +:+ ".md" in
  match review with
  | JStr text => write_file (cache_dir self) temp_file text
  | _ => write_file (cache_dir self) temp_file "";; raise TypeError
  end;;
  try_except
    (run_gh_command
       ["pr"; "comment"; pr_number; "--repo"; owner +:+ "/" +:+ repo;
        "--body-file"; cache_dir self +:+ "/" +:+ temp_file];;
     console_print (Text "[green]Review posted successfully![/green]");;
     unlink (cache_dir self) temp_file)
    (fun e =>
       console_print (ErrorText "[red]Error posting review: " e "[/red]");;
       sys_exit 1).

(** ** main *)

Definition main (pr_url : string) (cache dry_run : bool) : M unit :=
  reviewer ← __init__ ".cache";
  try_except
    ('(owner, repo, pr_number) ← lift (parse_pr_url pr_url);
     emit (TaskAdded "Fetching PR data...");;
     pr_data ← fetch_pr_data owner repo pr_number;
     emit (TaskUpdated "PR data fetched");;
     cache_key ← lift (get_cache_key pr_data);
     let review := JNull in
     review ←
       (if cache then
          emit (TaskAdded "Checking cache...");;
          review ← load_cache reviewer cache_key;
          (if truthy review then
             emit (TaskUpdated "Using cached review");;
             console_print (Text "[yellow]Using cached review[/yellow]")
           else emit (TaskUpdated "No cache found"));;
          mret review
        else mret review);
     review ←
       (if negb (truthy review) then
          emit (TaskAdded "Generating AI review...");;
          review ← review_pr reviewer pr_data;
          emit (TaskUpdated "Review generated");;
          (if cache then save_cache reviewer cache_key review else mret tt);;
          mret (JStr review)
        else mret review);
     console_print (Text (String Json.newline "[bold]Generated Review:[/bold]"));;
     console_print (Shown review);;
     if negb dry_run then post_review reviewer owner repo pr_number review
     else console_print (Text (String Json.newline "[yellow]Dry run mode - review not posted[/yellow]")))
    (fun e =>
       console_print (ErrorText "[red]Error: " e "[/red]");;
       sys_exit 1).

End Program.

(** * Definitions for the statements *)

(** ** Runs of characters and the shape of a PR URL *)

(** Every character of [s] passes the test [p]. *)
Fixpoint str_forall (p : ascii -> bool) (s : string) : bool :=
  match s with
  | EmptyString => true
  | String c s' => p c && str_forall p s'
  end.

(** [s] does not start with a character that passes [p]. *)
Definition stops (p : ascii -> bool) (s : string) : bool :=
  match s with
  | EmptyString => true
  | String c _ => negb (p c)
  end.

(** The longest run of characters of the set [k] at the start of [s],
    and the rest of [s]. *)
Fixpoint span (k : Re.cclass) (s : string) : string * string :=
  match s with
  | EmptyString => (EmptyString, EmptyString)
  | String c s' =>
      if Re.cmatch k c then let '(run, rest) := span k s' in (String c run, rest)
      else (EmptyString, s)
  end.

(** The pattern read from left to right without going back: the prefix,
    a run without [/], a [/], a second run, [/pull/], a run of digits.
    [Some] of the three runs when each is there and non-empty. *)
Definition scan_pr_url (url : string) : option (list string) :=
  match strip_prefix "https://github.com/" url with
  | None => None
  | Some s1 =>
      match fst (span (Re.CNot "/") s1) with
      | EmptyString => None
      | String _ _ =>
          match strip_prefix "/" (snd (span (Re.CNot "/") s1)) with
          | None => None
          | Some s3 =>
              match fst (span (Re.CNot "/") s3) with
              | EmptyString => None
              | String _ _ =>
                  match strip_prefix "/pull/" (snd (span (Re.CNot "/") s3)) with
                  | None => None
                  | Some s5 =>
                      match fst (span Re.CDigit s5) with
                      | EmptyString => None
                      | String _ _ =>
                          Some [fst (span (Re.CNot "/") s1);
                                fst (span (Re.CNot "/") s3);
                                fst (span Re.CDigit s5)]
                      end
                  end
              end
          end
      end
  end.

Definition not_slash (c : ascii) : bool := negb (Ascii.eqb c "/").

(** An owner or a repository: not empty, no [/] in it. *)
Definition segment (s : string) : Prop :=
  s <> "" /\ str_forall not_slash s = true.

(** A PR number: not empty, digits only. *)
Definition numeral (s : string) : Prop :=
  s <> "" /\ str_forall Json.is_digit s = true.

(** [https://github.com/{o}/{r}/pull/{n}] *)
Definition pr_url (o r n : string) : string :=
  "https://github.com/" +:+ o +:+ "/" +:+ r +:+ "/pull/" +:+ n.

(** The whole of [url] has the form. *)
Definition is_pr_url (url : string) : Prop :=
  exists o r n, segment o /\ segment r /\ numeral n /\ url = pr_url o r n.

(** [url] starts with a text of the form. *)
Definition starts_with_pr_url (url : string) : Prop :=
  exists o r n rest,
    segment o /\ segment r /\ numeral n /\ url = pr_url o r n +:+ rest.

(** ** Cache keys and files *)

(** The key as the specification words it: [pr_], the PR number, [_],
    the first 8 hexadecimal characters of the SHA-256 of the diff. *)
Definition cache_key_of (number : Z) (diff_text : string) : string :=
  "pr_" +:+ str_of_int number +:+ "_"
        +:+ str_take 8 (SHA256.hexdigest (encode diff_text)).

(** A cache key, as the specification defines it: what [cache_key_of]
    makes of a PR number and a diff. *)
Definition is_cache_key (k : string) : Prop :=
  exists (number : Z) (diff_text : string), k = cache_key_of number diff_text.

(** The characters a file name is made of. *)
Definition name_char (c : ascii) : bool :=
  negb (Json.code_is c 47 || Json.code_is c 0).

(** The content of the file [name] of the directory [d], if there. *)
Definition file_content (st : state) (d name : string) : option string :=
  match fs st !! d with
  | Some files => files !! name
  | None => None
  end.

(** ** What a run keeps, and how it ends *)

(** A relation between the state before and the state after that every
    step of a computation keeps. *)
Definition respects (R : state -> state -> Prop) {A} (m : M A) : Prop :=
  forall st, R st (snd (m st)).

(** The events of a run all pass a test. *)
Definition logs (ok : event -> bool) (st st' : state) : Prop :=
  exists l, log st' = log st ++ l /\ forallb ok l = true.

(** No directory goes away. *)
Definition keeps_dirs (st st' : state) : Prop :=
  forall d, is_Some (fs st !! d) -> is_Some (fs st' !! d).

(** The exit status of the process, from how [main] ends: 0 when it
    returns, the code of a [SystemExit], 1 for an exception no one
    caught. *)
Definition exit_status (r : result unit) : option Z :=
  match r with
  | Ok _ => Some 0%Z
  | Raise (SystemExit code) => Some code
  | Raise Unmodelled => None
  | Raise _ => Some 1%Z
  end.





(** ** Posting *)




(** ** The steps of main *)

(** The steps of [main], named: from the URL to the cache key; the
    cache lookup; the generation of a review when there is none; the
    last step; what the [except] clause does. *)
Definition fetch_stage (W : World) (pr_url : string)
  : M (string * string * string * PRData * string) :=
  '(owner, repo, pr_number) ← lift (parse_pr_url pr_url);
  emit (TaskAdded "Fetching PR data...");;
  pr_data ← fetch_pr_data W owner repo pr_number;
  emit (TaskUpdated "PR data fetched");;
  cache_key ← lift (get_cache_key pr_data);
  mret (owner, repo, pr_number, pr_data, cache_key).

Definition lookup_stage (reviewer : PRReviewer) (cache : bool) (cache_key : string) : M json :=
  if cache then
    emit (TaskAdded "Checking cache...");;
    review ← load_cache reviewer cache_key;
    (if truthy review then
       emit (TaskUpdated "Using cached review");;
       console_print (Text "[yellow]Using cached review[/yellow]")
     else emit (TaskUpdated "No cache found"));;
    mret review
  else mret JNull.

Definition generate_stage (W : World) (reviewer : PRReviewer) (cache : bool)
    (pr_data : PRData) (cache_key : string) (review : json) : M json :=
  if negb (truthy review) then
    emit (TaskAdded "Generating AI review...");;
    review ← review_pr W reviewer pr_data;
    emit (TaskUpdated "Review generated");;
    (if cache then save_cache reviewer cache_key review else mret tt);;
    mret (JStr review)
  else mret review.

(** From the URL to the review, before it is displayed. *)
Definition obtain_review (W : World) (reviewer : PRReviewer) (pr_url : string) (cache : bool)
  : M (string * string * string * json) :=
  '(owner, repo, pr_number, pr_data, cache_key) ← fetch_stage W pr_url;
  review ← lookup_stage reviewer cache cache_key;
  review ← generate_stage W reviewer cache pr_data cache_key review;
  mret (owner, repo, pr_number, review).

Definition display (review : json) : M unit :=
  console_print (Text (String Json.newline "[bold]Generated Review:[/bold]"));;
  console_print (Shown review).

Definition finish (W : World) (reviewer : PRReviewer) (owner repo pr_number : string)
    (review : json) (dry_run : bool) : M unit :=
  if negb dry_run then post_review W reviewer owner repo pr_number review
  else console_print
         (Text (String Json.newline "[yellow]Dry run mode - review not posted[/yellow]")).

Definition on_error (e : exn) : M unit :=
  console_print (ErrorText "[red]Error: " e "[/red]");;
  sys_exit 1.

Definition review_header : event :=
  Print (Text (String Json.newline "[bold]Generated Review:[/bold]")).

Definition dry_run_notice : event :=
  Print (Text (String Json.newline "[yellow]Dry run mode - review not posted[/yellow]")).

(** The events of a cache hit, from the lookup to the display. *)
Definition cache_hit_events (review : json) : list event :=
  [TaskAdded "Checking cache..."; TaskUpdated "Using cached review";
   Print (Text "[yellow]Using cached review[/yellow]");
   review_header; Print (Shown review)].

(** ** A world to run the program in: the specification's scenario *)

Definition scenario_url : string := "https://github.com/acme/widgets/pull/42".

(** The record of the specification's scenario: PR 42 of acme/widgets. *)
Definition scenario_pr : json :=
  JDict [("title", JStr "Add foo"); ("body", JStr ""); ("number", JInt 42);
         ("url", JStr "https://github.com/acme/widgets/pull/42");
         ("author", JDict [("login", JStr "alice")])].

Definition scenario_diff : string :=
  "+foo" +:+ String (chr 10) ("-bar" +:+ String (chr 10) "").

Definition scenario_data : PRData :=
  {| pr := scenario_pr; diff := scenario_diff;
     files := JList [JDict [("path", JStr "foo.txt")]] |}.

(** A JSON string without escapes. *)
Definition quoted (s : string) : string :=
  String Json.quote (s +:+ String Json.quote "").

Definition scenario_pr_json : string :=
  "{" +:+ quoted "title" +:+ ": " +:+ quoted "Add foo" +:+ ", "
      +:+ quoted "body" +:+ ": " +:+ quoted "" +:+ ", "
      +:+ quoted "number" +:+ ": 42, "
      +:+ quoted "url" +:+ ": " +:+ quoted "https://github.com/acme/widgets/pull/42" +:+ ", "
      +:+ quoted "author" +:+ ": {" +:+ quoted "login" +:+ ": " +:+ quoted "alice" +:+ "}}".

Definition scenario_files_json : string :=
  "{" +:+ quoted "files" +:+ ": [{" +:+ quoted "path" +:+ ": " +:+ quoted "foo.txt" +:+ "}]}".

(** [gh] answers the queries of [fetch_pr_data] for any PR with the
    scenario's data, and posts any comment; [post_ok] says whether
    posting works. *)
Definition scenario_gh (post_ok : bool) (st : state) (argv : list string) : option proc :=
  match argv with
  | ["gh"; "pr"; "view"; _; "--repo"; _; "--json"; fields] =>
      if String.eqb fields "files"
      then Some (Proc 0 scenario_files_json "")
      else Some (Proc 0 scenario_pr_json "")
  | ["gh"; "pr"; "diff"; _; "--repo"; _] =>
      Some (Proc 0 (String (chr 10) scenario_diff) "")
  | ["gh"; "pr"; "comment"; _; "--repo"; _; "--body-file"; _] =>
      if post_ok then Some (Proc 0 "" "") else Some (Proc 1 "" "HTTP 403")
  | _ => Some (Proc 2 "" "unknown command")
  end.

Definition scenario_world (with_base_url post_ok : bool) : World :=
  {| environ :=
       if with_base_url then {[ "OPENAI_BASE_URL" := "https://proxy.example/v1" ]} else ∅;
     gh := scenario_gh post_ok;
     completion := fun _ _ _ => Ok "Looks good to me.";
     prompt_file := Some (Ok "Review this pull request.") |}.

Definition empty_state : state := State ∅ [].

Definition scenario_self : PRReviewer :=
  {| cache_dir := ".cache";
     client := {| base_url := "https://proxy.example/v1"; api_key := "dummy" |} |}.

Definition scenario_ready : state := State {[ ".cache" := ∅ ]} [].

(** The scenario with a review in the cache under the key of the PR. *)
Definition scenario_key : string := "pr_42_4ab1c9a6".

Definition scenario_cache (review : string) : state :=
  State {[ ".cache" := {[ scenario_key +:+ ".json" := Json.dumps_member_indent2 "review" review ]} ]} [].

Definition scenario_fetched_data : PRData :=
  {| pr := scenario_pr; diff := "+foo" +:+ String (chr 10) "-bar";
     files := JList [JDict [("path", JStr "foo.txt")]] |}.

(** The state after the fetch: the files as they were, four events. *)
Definition scenario_fetched (review : string) : state :=
  State (fs (scenario_cache review))
        [TaskAdded "Fetching PR data...";
         Print (Text "[cyan]Fetching PR data for acme/widgets#42[/cyan]");
         Run ["gh"; "pr"; "view"; "42"; "--repo"; "acme/widgets"; "--json";
              "title,body,number,url,author"];
         Run ["gh"; "pr"; "diff"; "42"; "--repo"; "acme/widgets"];
         Run ["gh"; "pr"; "view"; "42"; "--repo"; "acme/widgets"; "--json"; "files"];
         TaskUpdated "PR data fetched"].

(** ** Ends of a text *)

Definition first_char (s : string) : option ascii :=
  match s with
  | String c _ => Some c
  | EmptyString => None
  end.

Fixpoint last_char (s : string) : option ascii :=
  match s with
  | EmptyString => None
  | String c EmptyString => Some c
  | String _ s' => last_char s'
  end.

(** No white space at either end, as after [str.strip]. *)
Definition trimmed (s : string) : Prop :=
  (forall c, first_char s = Some c -> py_isspace c = false)
  /\ (forall c, last_char s = Some c -> py_isspace c = false).

(** ** The characters of a cache key *)

(** A lower-case hexadecimal digit. *)
Definition lower_hex (c : ascii) : bool :=
  Json.code_in c 48 57 || Json.code_in c 97 102.

(** What [json.dump] writes with [ensure_ascii] and [indent]: printable
    ASCII characters and line ends. *)
Definition plain_char (c : ascii) : bool :=
  Json.code_in c 32 126 || Json.code_is c 10.

(** ** What a step leaves alone *)

(** No file changes. *)
Definition same_fs (st st' : state) : Prop := fs st' = fs st.

(** What [fetch_pr_data] may do: show a text, add or update a task, run
    [gh pr view] or [gh pr diff]. *)
Definition is_query (e : event) : bool :=
  match e with
  | Run (a :: b :: c :: _) =>
      String.eqb a "gh" && String.eqb b "pr" && (String.eqb c "view" || String.eqb c "diff")
  | Run _ => false
  | Completion _ _ _ => false
  | _ => true
  end.

Definition is_run (e : event) : bool :=
  match e with
  | Run _ => true
  | _ => false
  end.

Definition not_run (e : event) : bool := negb (is_run e).

(** The request of [review_pr] for a prompt and a user message. *)
Definition review_request (prompt user_message : string) : list event :=
  [Print (Text "[cyan]Sending PR for review...[/cyan]");
   Completion "google:gemini-2.5-pro" prompt user_message].


(** ** The files of a PR, as [review_pr] lists them *)

(** The name a file record is listed under: what it holds under 'path';
    without that key, what it holds under 'filename'; without both, the
    word unknown. *)
Inductive listed_as : json -> string -> Prop :=
| listed_path kv p :
    dict_lookup "path" kv = Some (JStr p) -> listed_as (JDict kv) p
| listed_filename kv q :
    dict_lookup "path" kv = None -> dict_lookup "filename" kv = Some (JStr q) ->
    listed_as (JDict kv) q
| listed_unknown kv :
    dict_lookup "path" kv = None -> dict_lookup "filename" kv = None ->
    listed_as (JDict kv) "unknown".

(** ** The first steps of a run *)

(** The state [__init__] leaves when it returns: the cache directory is
    there, nothing was shown. *)
Definition initialised (st : state) : state := snd (mkdir_exist_ok ".cache" st).

(** The first command of [fetch_pr_data]. *)
Definition view_argv (owner repo pr_number : string) : list string :=
  ["gh"; "pr"; "view"; pr_number; "--repo"; owner +:+ "/" +:+ repo;
   "--json"; "title,body,number,url,author"].


(** The line of the [except] clause of [main]. *)
Definition error_line (e : exn) : event := Print (ErrorText "[red]Error: " e "[/red]").



(** ** How a step can end *)


(** What [main] can end with when it does not return: [sys.exit(1)], or
    a step this embedding does not follow. *)
Definition ends_run (e : exn) : Prop := e = SystemExit 1 \/ e = Unmodelled.

(** What can be raised inside the [try] of [main]: an [Exception], for
    the [except] clause, or what ends the run. *)
Definition in_try (e : exn) : Prop := is_Exception e = true \/ ends_run e.


(** Outside the directory [d0], no directory changes. *)
Definition outside (d0 : string) (st st' : state) : Prop :=
  forall d, d <> d0 -> fs st' !! d = fs st !! d.

(** The scenario with a cache file that is not JSON. *)
Definition scenario_torn : state :=
  State {[ ".cache" := {[ scenario_key +:+ ".json" := "{" ]} ]} [].

(** The events of the fetch in the scenario. *)
Definition scenario_fetch_events : list event :=
  [TaskAdded "Fetching PR data...";
   Print (Text "[cyan]Fetching PR data for acme/widgets#42[/cyan]");
   Run ["gh"; "pr"; "view"; "42"; "--repo"; "acme/widgets"; "--json";
        "title,body,number,url,author"];
   Run ["gh"; "pr"; "diff"; "42"; "--repo"; "acme/widgets"];
   Run ["gh"; "pr"; "view"; "42"; "--repo"; "acme/widgets"; "--json"; "files"];
   TaskUpdated "PR data fetched"].

(** The events of a cache miss followed by a generation, up to the
    request. *)
Definition miss_events : list event :=
  [TaskAdded "Checking cache..."; TaskUpdated "No cache found";
   TaskAdded "Generating AI review..."].

(** The second and the third command of [fetch_pr_data]. *)
Definition diff_argv (owner repo pr_number : string) : list string :=
  ["gh"; "pr"; "diff"; pr_number; "--repo"; owner +:+ "/" +:+ repo].

Definition files_argv (owner repo pr_number : string) : list string :=
  ["gh"; "pr"; "view"; pr_number; "--repo"; owner +:+ "/" +:+ repo; "--json"; "files"].

(** * Properties *)

(** ** Test vectors and examples *)

Example sha256_constants :
  length SHA256.K = 64
  /\ nth 0 SHA256.K 0%N = 0x428a2f98%N /\ nth 63 SHA256.K 0%N = 0xc67178f2%N
  /\ nth 0 SHA256.H0 0%N = 0x6a09e667%N /\ nth 7 SHA256.H0 0%N = 0x5be0cd19%N.
Proof. repeat split. Qed.

Example sha256_empty :
  SHA256.hexdigest [] =
  "e3b0c44298fc1c149afbf4c8996fb92427ae41e4649b934ca495991b7852b855".
Proof. vm_compute. reflexivity. Qed.

Example sha256_abc :
  SHA256.hexdigest (encode "abc") =
  "ba7816bf8f01cfea414140de5dae2223b00361a396177a9cb410ff61f20015ad".
Proof. vm_compute. reflexivity. Qed.

(** The key of the specification's end-to-end scenario hashes this diff. *)
Example sha256_scenario_diff :
  str_take 8 (SHA256.hexdigest (encode ("+foo" +:+ String (chr 10) ("-bar" +:+ String (chr 10) ""))))
  = "5afde3ce".
Proof. vm_compute. reflexivity. Qed.

(** A message longer than one block, and one with a two-byte character. *)
Example sha256_two_blocks :
  SHA256.hexdigest (encode "abcdbcdecdefdefgefghfghighijhijkijkljklmklmnlmnomnopnopq") =
  "248d6a61d20638b8e5c026930c3e6039a33ce45964ff2167f6ecedd419db06c1".
Proof. vm_compute. reflexivity. Qed.

Example sha256_e_acute :
  SHA256.hexdigest (encode (String (chr 233) "")) =
  "4a99557e4033c3539de2eb65472017cad5f9557f7a0625a09f1c3f6e2ba69c4c".
Proof. vm_compute. reflexivity. Qed.

Example parse_pr_url_scenario :
  parse_pr_url "https://github.com/acme/widgets/pull/42" = Ok ("acme", "widgets", "42").
Proof. reflexivity. Qed.

Example parse_pr_url_http :
  parse_pr_url "http://github.com/acme/widgets/pull/42"
  = Raise (ValueError "Invalid GitHub PR URL: http://github.com/acme/widgets/pull/42").
Proof. reflexivity. Qed.

Example parse_pr_url_no_number :
  parse_pr_url "https://github.com/acme/widgets/pull/"
  = Raise (ValueError "Invalid GitHub PR URL: https://github.com/acme/widgets/pull/").
Proof. reflexivity. Qed.

Example parse_pr_url_files_tab :
  parse_pr_url "https://github.com/acme/widgets/pull/42/files" = Ok ("acme", "widgets", "42").
Proof. reflexivity. Qed.

(** ** The cache key *)

Example cache_key_of_scenario :
  cache_key_of 42 ("+foo" +:+ String (chr 10) ("-bar" +:+ String (chr 10) ""))
  = "pr_42_5afde3ce".
Proof. vm_compute. reflexivity. Qed.

Lemma get_cache_key_format pr_data number text :
  subscript (pr pr_data) "number" = Ok number ->
  py_format number = Ok text ->
  get_cache_key pr_data
  = Ok ("pr_" +:+ text +:+ "_" +:+ str_take 8 (SHA256.hexdigest (encode (diff pr_data)))).
Proof.
  intros Hnum Hfmt. unfold get_cache_key. rewrite Hnum, Hfmt. reflexivity.
Qed.

(** C1. For every PR-data record whose PR number is the integer [n] and
    whose diff text is [d], [get_cache_key] returns exactly ['pr_'], [n]
    in decimal, ['_'] and the first 8 hexadecimal characters of
    sha256(d); and two records with the same number and the same diff
    get the same key, whatever else they hold. *)
Theorem get_cache_key_spec (pr_data : PRData) (n : Z) :
  subscript (pr pr_data) "number" = Ok (JInt n) ->
  get_cache_key pr_data = Ok (cache_key_of n (diff pr_data))
  /\ forall pr_data' : PRData,
       subscript (pr pr_data') "number" = Ok (JInt n) ->
       diff pr_data' = diff pr_data ->
       get_cache_key pr_data' = get_cache_key pr_data.
Proof.
  intros Hnum.
  assert (Hkey : forall p : PRData,
             subscript (pr p) "number" = Ok (JInt n) ->
             get_cache_key p = Ok (cache_key_of n (diff p))).
  { intros p Hp. now rewrite (get_cache_key_format p (JInt n) (str_of_int n)). }
  split.
  - now apply Hkey.
  - intros p' Hp' Hdiff. rewrite (Hkey p' Hp'), (Hkey pr_data Hnum), Hdiff.
    reflexivity.
Qed.

Lemma get_cache_key_spec_witness :
  get_cache_key scenario_data = Ok "pr_42_5afde3ce"
  /\ forall pr_data' : PRData,
       subscript (pr pr_data') "number" = Ok (JInt 42) ->
       diff pr_data' = diff scenario_data ->
       get_cache_key pr_data' = get_cache_key scenario_data.
Proof.
  pose proof (get_cache_key_spec scenario_data 42 eq_refl) as [Hkey Hpure].
  split; [| exact Hpure].
  rewrite Hkey. vm_compute. reflexivity.
Defined.

(** ** Strings: appending, lengths, runs of characters *)

Lemma append_nil_l (s : string) : "" +:+ s = s.
Proof. reflexivity. Qed.

Lemma append_cons (c : ascii) (s t : string) : String c s +:+ t = String c (s +:+ t).
Proof. reflexivity. Qed.

Create Rewrite HintDb str.
#[local] Hint Rewrite append_nil_l append_cons : str.

Ltac str_simpl := simpl in *; autorewrite with str in *; simpl in *.

Lemma append_nil_r (s : string) : s +:+ "" = s.
Proof. induction s as [| c s IH]; str_simpl; [reflexivity | now rewrite IH]. Qed.

Lemma append_assoc (s1 s2 s3 : string) : (s1 +:+ s2) +:+ s3 = s1 +:+ (s2 +:+ s3).
Proof. induction s1 as [| c s1 IH]; str_simpl; [reflexivity | now rewrite IH]. Qed.

Lemma length_append (s1 s2 : string) :
  String.length (s1 +:+ s2) = String.length s1 + String.length s2.
Proof. induction s1 as [| c s1 IH]; str_simpl; [reflexivity | now rewrite IH]. Qed.

Lemma str_take_append (s1 s2 : string) : str_take (String.length s1) (s1 +:+ s2) = s1.
Proof. induction s1 as [| c s1 IH]; str_simpl; [now destruct s2 | now rewrite IH]. Qed.

Lemma strip_prefix_append (p s : string) : strip_prefix p (p +:+ s) = Some s.
Proof.
  induction p as [| c p IH]; str_simpl; [reflexivity |].
  now rewrite Ascii.eqb_refl.
Qed.

Lemma strip_prefix_cons (a b : ascii) (p s : string) :
  strip_prefix (String a p) (String b s)
  = if Ascii.eqb a b then strip_prefix p s else None.
Proof. reflexivity. Qed.

Lemma strip_prefix_Some (p s rest : string) : strip_prefix p s = Some rest -> s = p +:+ rest.
Proof.
  revert s. induction p as [| c p IH]; intros s H; str_simpl.
  - now inversion H.
  - destruct s as [| d s]; [discriminate |].
    destruct (Ascii.eqb c d) eqn:E; [| discriminate].
    apply Ascii.eqb_eq in E. subst d. now rewrite (IH s H).
Qed.

Lemma str_forall_append p s1 s2 :
  str_forall p (s1 +:+ s2) = str_forall p s1 && str_forall p s2.
Proof.
  induction s1 as [| c s1 IH]; str_simpl; [reflexivity |].
  now rewrite IH, andb_assoc.
Qed.

Lemma span_append k s : fst (span k s) +:+ snd (span k s) = s.
Proof.
  induction s as [| c s IH]; simpl; [reflexivity |].
  destruct (Re.cmatch k c); [| reflexivity].
  destruct (span k s) as [run rest]. str_simpl. now rewrite IH.
Qed.

Lemma span_run k s : str_forall (Re.cmatch k) (fst (span k s)) = true.
Proof.
  induction s as [| c s IH]; simpl; [reflexivity |].
  destruct (Re.cmatch k c) eqn:E; [| reflexivity].
  destruct (span k s) as [run rest]. simpl in *. now rewrite E, IH.
Qed.

Lemma span_stops k s : stops (Re.cmatch k) (snd (span k s)) = true.
Proof.
  induction s as [| c s IH]; simpl; [reflexivity |].
  destruct (Re.cmatch k c) eqn:E.
  - destruct (span k s) as [run rest]. exact IH.
  - simpl. now rewrite E.
Qed.

Lemma span_nil k s : fst (span k s) = "" -> snd (span k s) = s.
Proof.
  destruct s as [| c s]; simpl; [reflexivity |].
  destruct (Re.cmatch k c); [| reflexivity].
  destruct (span k s); discriminate.
Qed.

(** A run followed by something that stops it is what [span] finds. *)
Lemma span_exact k run rest :
  str_forall (Re.cmatch k) run = true ->
  stops (Re.cmatch k) rest = true ->
  span k (run +:+ rest) = (run, rest).
Proof.
  intros Hrun Hstop. induction run as [| c run IH]; str_simpl.
  - destruct rest as [| d rest]; simpl in *; [reflexivity |].
    now destruct (Re.cmatch k d).
  - apply andb_true_iff in Hrun as [Hc Hrun]. rewrite Hc, (IH Hrun). reflexivity.
Qed.

Lemma consumed_append (run rest : string) : Re.consumed (run +:+ rest) rest = run.
Proof.
  unfold Re.consumed. rewrite length_append.
  replace (String.length run + String.length rest - String.length rest)
    with (String.length run) by lia.
  apply str_take_append.
Qed.

(** ** The matcher on literals and on runs *)

Lemma rmatch_lit {R} (p s : string) caps (cont : string -> list string -> option R) :
  Re.rmatch (Re.lit p) s caps cont
  = match strip_prefix p s with
    | Some rest => cont rest caps
    | None => None
    end.
Proof.
  revert s. induction p as [| c p IH]; intros s; simpl; [reflexivity |].
  destruct s as [| d s]; [reflexivity |].
  rewrite Ascii.eqb_sym. destruct (Ascii.eqb c d); [apply IH | reflexivity].
Qed.

(** Greedy [k+] settles on the longest run when giving characters back
    cannot help: whenever what follows fails after the run, it fails
    after every shorter run too. *)
Lemma plus_match_span {R} k (s : string) (cont : string -> option R) :
  (forall c s1 s2, cont s2 = None -> Re.cmatch k c = true -> cont (String c s1) = None) ->
  Re.plus_match k s cont
  = match fst (span k s) with
    | EmptyString => None
    | String _ _ => cont (snd (span k s))
    end.
Proof.
  intros Hback. induction s as [| c s IH]; simpl; [reflexivity |].
  destruct (Re.cmatch k c) eqn:Hc; [| reflexivity].
  rewrite IH. pose proof (span_nil k s) as Hnil.
  destruct (span k s) as [run rest] eqn:Hspan. simpl in *.
  destruct run as [| d run].
  - now rewrite Hnil.
  - destruct (cont rest) eqn:Hrest; [reflexivity |].
    destruct s as [| e s]; [discriminate |].
    simpl in Hspan. destruct (Re.cmatch k e) eqn:He; [| discriminate].
    now apply (Hback e s rest).
Qed.

(** ** parse_pr_url *)

Lemma rmatch_seq {R} r1 r2 s caps (cont : string -> list string -> option R) :
  Re.rmatch (Re.Seq r1 r2) s caps cont
  = Re.rmatch r1 s caps (fun s' caps' => Re.rmatch r2 s' caps' cont).
Proof. reflexivity. Qed.

Lemma rmatch_group_plus {R} k s caps (cont : string -> list string -> option R) :
  Re.rmatch (Re.Group (Re.Plus k)) s caps cont
  = Re.plus_match k s (fun s' => cont s' (caps ++ [Re.consumed s s'])).
Proof. reflexivity. Qed.

(** After a run without [/], a pattern that starts with the literal
    [/...] fails at every character of the run. *)
Lemma slash_blocks {R} (p : string) r c s caps (cont : string -> list string -> option R) :
  Re.cmatch (Re.CNot "/") c = true ->
  Re.rmatch (Re.Seq (Re.lit (String "/" p)) r) (String c s) caps cont = None.
Proof.
  intros Hc. rewrite rmatch_seq, rmatch_lit, strip_prefix_cons, Ascii.eqb_sym.
  unfold Re.cmatch in Hc. now destruct (Ascii.eqb c "/").
Qed.

Lemma consumed_span k s : Re.consumed s (snd (span k s)) = fst (span k s).
Proof.
  rewrite <- (span_append k s) at 1. apply consumed_append.
Qed.

(** The backtracking matcher never goes back on this pattern. *)
Lemma re_match_pattern (url : string) : Re.re_match pattern url = scan_pr_url url.
Proof.
  unfold Re.re_match, pattern, scan_pr_url.
  rewrite rmatch_seq, rmatch_lit.
  destruct (strip_prefix "https://github.com/" url) as [s1 |]; [| reflexivity].
  rewrite rmatch_seq, rmatch_group_plus, plus_match_span.
  2: { intros c t1 t2 _ Hc. now apply (slash_blocks ""). }
  destruct (fst (span (Re.CNot "/") s1)) as [| o1 o] eqn:Ho; [reflexivity |].
  rewrite rmatch_seq, rmatch_lit.
  destruct (strip_prefix "/" (snd (span (Re.CNot "/") s1))) as [s3 |]; [| reflexivity].
  rewrite rmatch_seq, rmatch_group_plus, plus_match_span.
  2: { intros c t1 t2 _ Hc. now apply (slash_blocks "pull/"). }
  destruct (fst (span (Re.CNot "/") s3)) as [| r1 r] eqn:Hr; [reflexivity |].
  rewrite rmatch_seq, rmatch_lit.
  destruct (strip_prefix "/pull/" (snd (span (Re.CNot "/") s3))) as [s5 |]; [| reflexivity].
  rewrite rmatch_group_plus, plus_match_span by discriminate.
  destruct (fst (span Re.CDigit s5)) as [| n1 n] eqn:Hn; [reflexivity |].
  rewrite !consumed_span, Ho, Hr, Hn. reflexivity.
Qed.

Lemma parse_pr_url_scan (url : string) :
  parse_pr_url url
  = match scan_pr_url url with
    | None => Raise (ValueError ("Invalid GitHub PR URL: " +:+ url))
    | Some groups => Ok (nth 0 groups "", nth 1 groups "", nth 2 groups "")
    end.
Proof. unfold parse_pr_url. now rewrite re_match_pattern. Qed.

(** A URL of the form, followed by anything that does not go on with a
    digit, parses to its three parts. *)
Lemma parse_pr_url_prefix (o r n rest : string) :
  segment o -> segment r -> numeral n ->
  stops Json.is_digit rest = true ->
  parse_pr_url (pr_url o r n +:+ rest) = Ok (o, r, n).
Proof.
  intros [Ho1 Ho2] [Hr1 Hr2] [Hn1 Hn2] Hrest.
  rewrite parse_pr_url_scan. unfold scan_pr_url, pr_url.
  rewrite !append_assoc, strip_prefix_append.
  rewrite (span_exact (Re.CNot "/") o) by (assumption || reflexivity).
  cbn [fst snd]. destruct o as [| o1 o]; [contradiction |].
  rewrite strip_prefix_append.
  rewrite (span_exact (Re.CNot "/") r) by (assumption || reflexivity).
  cbn [fst snd]. destruct r as [| r1 r]; [contradiction |].
  rewrite strip_prefix_append.
  rewrite (span_exact Re.CDigit n) by assumption.
  cbn [fst snd]. destruct n as [| n1 n]; [contradiction |].
  reflexivity.
Qed.

(** What [parse_pr_url] returns are the parts of a text of the form at
    the start of the URL. *)
Lemma parse_pr_url_sound (url o r n : string) :
  parse_pr_url url = Ok (o, r, n) ->
  exists rest,
    url = pr_url o r n +:+ rest /\ segment o /\ segment r /\ numeral n
    /\ stops Json.is_digit rest = true.
Proof.
  rewrite parse_pr_url_scan. unfold scan_pr_url.
  destruct (strip_prefix "https://github.com/" url) as [s1 |] eqn:H1; [| discriminate].
  destruct (fst (span (Re.CNot "/") s1)) as [| o1 o'] eqn:Ho; [discriminate |].
  destruct (strip_prefix "/" (snd (span (Re.CNot "/") s1))) as [s3 |] eqn:H3; [| discriminate].
  destruct (fst (span (Re.CNot "/") s3)) as [| r1 r'] eqn:Hr; [discriminate |].
  destruct (strip_prefix "/pull/" (snd (span (Re.CNot "/") s3))) as [s5 |] eqn:H5; [| discriminate].
  destruct (fst (span Re.CDigit s5)) as [| n1 n'] eqn:Hn; [discriminate |].
  cbn [nth]. intros E. injection E as <- <- <-.
  exists (snd (span Re.CDigit s5)).
  pose proof (span_run (Re.CNot "/") s1) as Ro. rewrite Ho in Ro.
  pose proof (span_run (Re.CNot "/") s3) as Rr. rewrite Hr in Rr.
  pose proof (span_run Re.CDigit s5) as Rn. rewrite Hn in Rn.
  repeat split; try discriminate; try assumption; [| apply span_stops].
  unfold pr_url. rewrite !append_assoc.
  apply strip_prefix_Some in H1, H3, H5.
  rewrite H1. f_equal.
  rewrite <- (span_append (Re.CNot "/") s1) at 1. rewrite Ho, H3. f_equal. f_equal.
  rewrite <- (span_append (Re.CNot "/") s3) at 1. rewrite Hr, H5. f_equal. f_equal.
  rewrite <- (span_append Re.CDigit s5) at 1. now rewrite Hn.
Qed.

(** Whatever does not parse is refused with the [ValueError] that
    carries it. *)
Lemma parse_pr_url_raises (url : string) (e : exn) :
  parse_pr_url url = Raise e -> e = ValueError ("Invalid GitHub PR URL: " +:+ url).
Proof.
  unfold parse_pr_url. destruct (Re.re_match pattern url); [discriminate |].
  intros E. now injection E.
Qed.

(** C5. Every URL of exactly the form
    https://github.com/{o}/{r}/pull/{n}, with [o] and [r] non-empty and
    free of [/] and [n] a non-empty string of digits, parses, and to
    exactly [(o, r, n)]. *)
Theorem parse_pr_url_valid (o r n : string) :
  segment o -> segment r -> numeral n ->
  parse_pr_url (pr_url o r n) = Ok (o, r, n).
Proof.
  intros Ho Hr Hn.
  rewrite <- (append_nil_r (pr_url o r n)).
  now apply parse_pr_url_prefix.
Qed.

Lemma parse_pr_url_valid_witness :
  parse_pr_url "https://github.com/acme/widgets/pull/42" = Ok ("acme", "widgets", "42").
Proof.
  apply (parse_pr_url_valid "acme" "widgets" "42");
    (split; [discriminate | reflexivity]).
Defined.

(** C4, as the code has it. Every string that does not start with a
    text of the form https://github.com/{owner}/{repo}/pull/{number}
    (owner and repo non-empty and free of [/], number a non-empty
    string of digits) is refused: [parse_pr_url] raises the
    [ValueError] that carries the string, and returns nothing. *)
Theorem parse_pr_url_invalid (url : string) :
  ~ starts_with_pr_url url ->
  parse_pr_url url = Raise (ValueError ("Invalid GitHub PR URL: " +:+ url)).
Proof.
  intros Hno. destruct (parse_pr_url url) as [[[o r] n] | e] eqn:E.
  - exfalso. apply Hno.
    destruct (parse_pr_url_sound url o r n E) as (rest & Hurl & Ho & Hr & Hn & _).
    now exists o, r, n, rest.
  - now rewrite (parse_pr_url_raises url e E).
Qed.

Lemma not_starts_with_http : ~ starts_with_pr_url "http://github.com/acme/widgets/pull/42".
Proof.
  intros (o & r & n & rest & _ & _ & _ & E). unfold pr_url in E.
  rewrite !append_assoc in E. discriminate E.
Qed.

Lemma parse_pr_url_invalid_witness :
  parse_pr_url "http://github.com/acme/widgets/pull/42"
  = Raise (ValueError "Invalid GitHub PR URL: http://github.com/acme/widgets/pull/42").
Proof.
  apply (parse_pr_url_invalid "http://github.com/acme/widgets/pull/42").
  exact not_starts_with_http.
Defined.

(** C4, as stated, fails: the address of a PR's "Files changed" tab
    does not have the form, since it goes on after the number, and
    [parse_pr_url] returns a result for it. *)
Lemma parse_pr_url_accepts_longer :
  ~ is_pr_url "https://github.com/acme/widgets/pull/42/files"
  /\ parse_pr_url "https://github.com/acme/widgets/pull/42/files"
     = Ok ("acme", "widgets", "42").
Proof.
  split; [| reflexivity].
  intros (o & r & n & Ho & Hr & Hn & E).
  pose proof (parse_pr_url_prefix o r n "" Ho Hr Hn eq_refl) as Hparse.
  rewrite append_nil_r, <- E in Hparse. vm_compute in Hparse.
  injection Hparse as <- <- <-. discriminate E.
Qed.

(** ** json: what is written reads back *)

Lemma scanstring_escape_char (c : ascii) (tail : string) :
  Json.scanstring (Json.escape_char c +:+ tail)
  = Json.cons_str c (Json.scanstring tail).
Proof. destruct c as [[] [] [] [] [] [] [] []]; reflexivity. Qed.

(** The decoder reads an escaped string back, up to the closing quote. *)
Lemma scanstring_escape (s rest : string) :
  Json.scanstring (Json.escape s +:+ String Json.quote rest) = Ok (s, rest).
Proof.
  induction s as [| c s IH]; [reflexivity |].
  cbn [Json.escape]. rewrite append_assoc, scanstring_escape_char, IH.
  reflexivity.
Qed.

Lemma dumps_member_shape (key value : string) :
  Json.dumps_member_indent2 key value
  = String "{" (String Json.newline (String " " (String " " (String Json.quote
      (Json.escape key +:+ String Json.quote (String ":" (String " " (String Json.quote
        (Json.escape value +:+ String Json.quote (String Json.newline "}")))))))))).
Proof.
  unfold Json.dumps_member_indent2, Json.encode_basestring_ascii.
  repeat (rewrite ?append_cons, ?append_nil_l, ?append_assoc). reflexivity.
Qed.

Ltac known t v := change t with v; cbv beta iota.

(** An object with one member whose value is a string: the parser's
    steps from the key to the closing brace. *)
Lemma members_one f T key T2 value acc :
  Json.scanstring T = Ok (key, String ":" (String " " (String Json.quote T2))) ->
  Json.scanstring T2 = Ok (value, String Json.newline "}") ->
  Json.members (S (S f)) T acc = Ok (JDict (rev ((key, JStr value) :: acc)), "").
Proof.
  intros H1 H2. simpl. rewrite H1. cbv beta iota.
  known (Json.skip_ws (String ":" (String " " (String Json.quote T2))))
        (String ":" (String " " (String Json.quote T2))).
  known (Json.code_is ":" 58) true.
  known (Json.skip_ws (String " " (String Json.quote T2))) (String Json.quote T2).
  known (Json.code_is Json.quote 34) true.
  rewrite H2. cbv beta iota.
  known (Json.skip_ws (String Json.newline "}")) "}".
  known (Json.code_is "}" 125) true.
  reflexivity.
Qed.

Lemma scan_once_object (f : nat) (body : string) :
  Json.scan_once (S (S f))
    (String "{" (String Json.newline (String " " (String " " (String Json.quote body)))))
  = Json.members (S f) body [].
Proof. reflexivity. Qed.

(** What [save_cache] writes, [json.loads] reads as the [dict] with the
    review under 'review'. *)
Lemma loads_dumps_review (review : string) :
  Json.loads (Json.dumps_member_indent2 "review" review)
  = Ok (JDict [("review", JStr review)]).
Proof.
  rewrite dumps_member_shape. unfold Json.loads, Json.loads_with.
  match goal with |- context [Json.skip_ws ?t] =>
    change (Json.skip_ws t) with t end.
  cbn [String.length Nat.mul Nat.add].
  rewrite scan_once_object.
  erewrite (members_one _ _ "review" _ review []).
  - reflexivity.
  - apply scanstring_escape.
  - apply scanstring_escape.
Qed.

(** ** json: the fuel is enough *)

Lemma skip_ws_length (s : string) : String.length (Json.skip_ws s) <= String.length s.
Proof.
  induction s as [| c s IH]; simpl; [lia |].
  destruct (Json.is_ws c); simpl; lia.
Qed.

Lemma strip_prefix_length (p s rest : string) :
  strip_prefix p s = Some rest -> String.length rest <= String.length s.
Proof.
  intros H. apply strip_prefix_Some in H. subst s. rewrite length_append. lia.
Qed.

Lemma cons_str_Ok (c : ascii) r x rest :
  Json.cons_str c r = Ok (x, rest) -> exists x', r = Ok (x', rest).
Proof.
  destruct r as [[x' rest'] | e]; simpl; [| discriminate].
  intros H. injection H as _ <-. now exists x'.
Qed.

(** A string takes at least its closing quote. *)
Lemma scanstring_length (s x rest : string) :
  Json.scanstring s = Ok (x, rest) -> String.length rest < String.length s.
Proof.
  remember (String.length s) as n eqn:Hn. revert s x rest Hn.
  induction n as [n IH] using lt_wf_ind. intros s x rest Hn H.
  destruct s as [| c s]; [discriminate |]. simpl in Hn, H.
  destruct (Json.code_is c 34).
  { injection H as _ <-. lia. }
  destruct (Json.code_is c 92).
  - destruct s as [| e s1]; [discriminate |].
    destruct (Json.code_is e 117).
    + destruct s1 as [| h1 [| h2 [| h3 [| h4 s2]]]]; try discriminate.
      destruct (Json.hex4 h1 h2 h3 h4) as [k |]; [| discriminate].
      destruct (k <? 256)%N; [| discriminate].
      apply cons_str_Ok in H as [x' H].
      apply (IH (String.length s2)) in H; simpl in *; try lia.
    + destruct (Json.unescape e); [| discriminate].
      apply cons_str_Ok in H as [x' H].
      apply (IH (String.length s1)) in H; simpl in *; try lia.
  - destruct (ord c <? 32)%N; [discriminate |].
    apply cons_str_Ok in H as [x' H].
    apply (IH (String.length s)) in H; simpl in *; try lia.
Qed.

Lemma digits_length (s : string) acc k n k' rest :
  Json.digits s acc k = (n, k', rest) -> String.length rest <= String.length s.
Proof.
  revert acc k. induction s as [| c s IH]; intros acc k H; simpl in H.
  - injection H as _ _ <-. lia.
  - destruct (Json.is_digit c).
    + apply IH in H. simpl. lia.
    + injection H as _ _ <-. lia.
Qed.

Lemma scan_sign_length s : String.length (snd (Json.scan_sign s)) <= String.length s.
Proof.
  destruct s as [| c r]; simpl; [lia |].
  destruct (Json.code_is c 45); simpl; lia.
Qed.

Lemma scan_int_length s n rest :
  Json.scan_int s = Some (n, rest) -> String.length rest <= String.length s.
Proof.
  destruct s as [| c r]; [discriminate |]. unfold Json.scan_int.
  destruct (Json.code_is c 48).
  { intros H. injection H as _ <-. simpl. lia. }
  destruct (Json.code_in c 49 57); [| discriminate].
  destruct (Json.digits (String c r) 0 0) as [[m k] r'] eqn:E.
  intros H. injection H as _ <-. now apply digits_length in E.
Qed.

Lemma scan_frac_length n s : String.length (snd (Json.scan_frac n s)) <= String.length s.
Proof.
  destruct s as [| c r]; simpl; [lia |].
  destruct (Json.code_is c 46); [| simpl; lia].
  destruct (Json.digits r n 0) as [[m k] r'] eqn:E. apply digits_length in E.
  destruct k; simpl; lia.
Qed.

Lemma scan_exp_length s : String.length (snd (Json.scan_exp s)) <= String.length s.
Proof.
  destruct s as [| c r]; simpl; [lia |].
  destruct (Json.code_is c 101 || Json.code_is c 69); [| simpl; lia].
  match goal with
  | |- context [let '(_, _) := ?p in _] => destruct p as [negative r1] eqn:E
  end.
  assert (Hr1 : String.length r1 <= String.length r).
  { destruct r as [| sg r']; [injection E as _ <-; lia |].
    destruct (Json.code_is sg 45); [injection E as _ <-; simpl; lia |].
    destruct (Json.code_is sg 43); injection E as _ <-; simpl; lia. }
  destruct (Json.digits r1 0 0) as [[e k] r2] eqn:E1.
  apply digits_length in E1. destruct k; simpl; lia.
Qed.

Lemma scan_number_length s v rest :
  Json.scan_number s = Some (v, rest) -> String.length rest <= String.length s.
Proof.
  unfold Json.scan_number.
  pose proof (scan_sign_length s) as H1.
  destruct (Json.scan_sign s) as [negative s1]. simpl in H1.
  destruct (Json.scan_int s1) as [[n s2] |] eqn:E2; [| discriminate].
  apply scan_int_length in E2.
  pose proof (scan_frac_length n s2) as H3.
  destruct (Json.scan_frac n s2) as [frac s3]. simpl in H3.
  pose proof (scan_exp_length s3) as H4.
  destruct (Json.scan_exp s3) as [exp s4]. simpl in H4.
  destruct frac as [[m k] |], exp; intros H; injection H as _ <-; lia.
Qed.

Lemma scan_constant_length s v rest :
  Json.scan_constant s = Some (v, rest) -> String.length rest <= String.length s.
Proof.
  unfold Json.scan_constant.
  repeat match goal with
         | |- context [strip_prefix ?p s] =>
             let E := fresh "E" in
             destruct (strip_prefix p s) eqn:E;
             [apply strip_prefix_length in E; intros H; injection H as _ <-; exact E |]
         | |- context [Json.scan_number s] =>
             let E := fresh "E" in
             destruct (Json.scan_number s) as [[? ?] |] eqn:E;
             [apply scan_number_length in E; intros H; injection H as _ <-; exact E |]
         end.
  discriminate.
Qed.

(** What a value, the members of an object or the elements of an array
    leave is no longer than what they were given. *)
Lemma scan_length (fuel : nat) :
  (forall s v rest, Json.scan_once fuel s = Ok (v, rest) ->
     String.length rest <= String.length s) /\
  (forall s acc v rest, Json.members fuel s acc = Ok (v, rest) ->
     String.length rest <= String.length s) /\
  (forall s acc v rest, Json.elements fuel s acc = Ok (v, rest) ->
     String.length rest <= String.length s).
Proof.
  induction fuel as [| f (IHs & IHm & IHe)]; [repeat split; discriminate |].
  repeat split.
  - intros s v rest H. destruct s as [| c r]; [discriminate |]. simpl in H.
    destruct (Json.code_is c 34).
    { destruct (Json.scanstring r) as [[x rest'] | e] eqn:E; [| discriminate].
      apply scanstring_length in E. injection H as _ <-. simpl. lia. }
    pose proof (skip_ws_length r) as Hws.
    destruct (Json.code_is c 123).
    { destruct (Json.skip_ws r) as [| c1 r1]; [discriminate |]. simpl in Hws.
      destruct (Json.code_is c1 125); [injection H as _ <-; simpl; lia |].
      destruct (Json.code_is c1 34); [| discriminate].
      apply IHm in H. simpl. lia. }
    destruct (Json.code_is c 91).
    { destruct (Json.skip_ws r) as [| c1 r1] eqn:E; [discriminate |]. simpl in Hws.
      destruct (Json.code_is c1 93); [injection H as _ <-; simpl; lia |].
      apply IHe in H. simpl in *. lia. }
    destruct (Json.scan_constant (String c r)) as [[v' rest'] |] eqn:E; [| discriminate].
    apply scan_constant_length in E. injection H as _ <-. exact E.
  - intros s acc v rest H. simpl in H.
    destruct (Json.scanstring s) as [[key s1] | e] eqn:E; [| discriminate].
    apply scanstring_length in E.
    pose proof (skip_ws_length s1) as H1.
    destruct (Json.skip_ws s1) as [| c s2]; [discriminate |]. simpl in H1.
    destruct (Json.code_is c 58); [| discriminate].
    pose proof (skip_ws_length s2) as H2.
    destruct (Json.scan_once f (Json.skip_ws s2)) as [[v' s3] | e] eqn:E3; [| discriminate].
    apply IHs in E3.
    pose proof (skip_ws_length s3) as H3.
    destruct (Json.skip_ws s3) as [| d s4]; [discriminate |]. simpl in H3.
    destruct (Json.code_is d 125); [injection H as _ <-; lia |].
    destruct (Json.code_is d 44); [| discriminate].
    pose proof (skip_ws_length s4) as H4.
    destruct (Json.skip_ws s4) as [| q s5]; [discriminate |]. simpl in H4.
    destruct (Json.code_is q 34); [| discriminate].
    apply IHm in H. lia.
  - intros s acc v rest H. simpl in H.
    destruct (Json.scan_once f s) as [[v' s1] | e] eqn:E1; [| discriminate].
    apply IHs in E1.
    pose proof (skip_ws_length s1) as H1.
    destruct (Json.skip_ws s1) as [| d s2]; [discriminate |]. simpl in H1.
    destruct (Json.code_is d 93); [injection H as _ <-; lia |].
    destruct (Json.code_is d 44); [| discriminate].
    pose proof (skip_ws_length s2) as H2.
    apply IHe in H. lia.
Qed.

(** With twice the length of the text and one more, a further unit of
    fuel changes nothing. *)
Lemma scan_fuel_step (fuel : nat) :
  (forall s, 2 * String.length s + 1 <= fuel ->
     Json.scan_once (S fuel) s = Json.scan_once fuel s) /\
  (forall s acc, 2 * String.length s + 2 <= fuel ->
     Json.members (S fuel) s acc = Json.members fuel s acc) /\
  (forall s acc, 2 * String.length s + 2 <= fuel ->
     Json.elements (S fuel) s acc = Json.elements fuel s acc).
Proof.
  induction fuel as [| f (IHs & IHm & IHe)]; [repeat split; intros; lia |].
  repeat split.
  - intros s Hf. destruct s as [| c r]; [reflexivity |].
    cbn [Json.scan_once].
    simpl in Hf. pose proof (skip_ws_length r) as Hws.
    destruct (Json.code_is c 34); [reflexivity |].
    destruct (Json.code_is c 123).
    { destruct (Json.skip_ws r) as [| c1 r1]; [reflexivity |]. simpl in Hws.
      destruct (Json.code_is c1 125); [reflexivity |].
      destruct (Json.code_is c1 34); [| reflexivity].
      apply IHm. lia. }
    destruct (Json.code_is c 91); [| reflexivity].
    destruct (Json.skip_ws r) as [| c1 r1]; [reflexivity |]. simpl in Hws.
    destruct (Json.code_is c1 93); [reflexivity |].
    apply IHe. simpl. lia.
  - intros s acc Hf.
    cbn [Json.members].
    destruct (Json.scanstring s) as [[key s1] | e] eqn:E; [| reflexivity].
    apply scanstring_length in E.
    pose proof (skip_ws_length s1) as H1.
    destruct (Json.skip_ws s1) as [| c s2]; [reflexivity |]. simpl in H1.
    destruct (Json.code_is c 58); [| reflexivity].
    pose proof (skip_ws_length s2) as H2.
    rewrite IHs by lia.
    destruct (Json.scan_once f (Json.skip_ws s2)) as [[v s3] | e] eqn:E3; [| reflexivity].
    apply (proj1 (scan_length f)) in E3.
    pose proof (skip_ws_length s3) as H3.
    destruct (Json.skip_ws s3) as [| d s4]; [reflexivity |]. simpl in H3.
    destruct (Json.code_is d 125); [reflexivity |].
    destruct (Json.code_is d 44); [| reflexivity].
    pose proof (skip_ws_length s4) as H4.
    destruct (Json.skip_ws s4) as [| q s5]; [reflexivity |]. simpl in H4.
    destruct (Json.code_is q 34); [| reflexivity].
    apply IHm. lia.
  - intros s acc Hf.
    cbn [Json.elements].
    rewrite IHs by lia.
    destruct (Json.scan_once f s) as [[v s1] | e] eqn:E1; [| reflexivity].
    apply (proj1 (scan_length f)) in E1.
    pose proof (skip_ws_length s1) as H1.
    destruct (Json.skip_ws s1) as [| d s2]; [reflexivity |]. simpl in H1.
    destruct (Json.code_is d 93); [reflexivity |].
    destruct (Json.code_is d 44); [| reflexivity].
    pose proof (skip_ws_length s2) as H2.
    apply IHe. lia.
Qed.

Lemma scan_once_fuel (s : string) (fuel : nat) :
  2 * String.length s + 1 <= fuel ->
  Json.scan_once fuel s = Json.scan_once (2 * String.length s + 1) s.
Proof.
  induction 1 as [| f Hf IH]; [reflexivity |].
  rewrite <- IH. now apply scan_fuel_step.
Qed.

(** The fuel of [loads] is enough: more of it gives the same result. *)
Lemma loads_fuel (s : string) (fuel : nat) :
  2 * String.length s + 1 <= fuel -> Json.loads_with fuel s = Json.loads s.
Proof.
  intros Hf. unfold Json.loads, Json.loads_with.
  pose proof (skip_ws_length s) as Hws.
  rewrite (scan_once_fuel (Json.skip_ws s) fuel) by lia.
  rewrite (scan_once_fuel (Json.skip_ws s) (S (2 * String.length s))) by lia.
  reflexivity.
Qed.

(** ** The cache store *)

Lemma bind_run {A B} (m : M A) (f : A -> M B) (st : state) :
  (m ≫= f) st
  = match m st with
    | (Ok a, st') => f a st'
    | (Raise e, st') => (Raise e, st')
    end.
Proof. reflexivity. Qed.

(** C6. For every key [k] for which no cache file exists,
    [load_cache k] returns [None]; it raises nothing, and it leaves
    the state as it is. *)
Theorem load_cache_absent (self : PRReviewer) (k : string) (st : state) :
  (forall files : gmap string string,
      fs st !! cache_dir self = Some files -> files !! (k +:+ ".json") = None) ->
  load_cache self k st = (Ok JNull, st).
Proof.
  intros Hno. unfold load_cache. rewrite bind_run. unfold path_exists, ask.
  destruct (fs st !! cache_dir self) as [files |] eqn:Hdir; [| reflexivity].
  rewrite (Hno files eq_refl). reflexivity.
Qed.

Lemma load_cache_absent_witness :
  load_cache {| cache_dir := ".cache"; client := {| base_url := ""; api_key := "" |} |}
             "pr_42_5afde3ce" (State {[ ".cache" := ∅ ]} [])
  = (Ok JNull, State {[ ".cache" := ∅ ]} []).
Proof.
  apply load_cache_absent. intros files Hfiles.
  vm_compute in Hfiles. injection Hfiles as <-. reflexivity.
Defined.

Lemma is_filename_forall (s : string) : is_filename s = str_forall name_char s.
Proof.
  unfold is_filename. induction s as [| c s IH]; [reflexivity |].
  simpl. now rewrite IH.
Qed.

Lemma str_forall_take p n s : str_forall p s = true -> str_forall p (str_take n s) = true.
Proof.
  revert s. induction n as [| n IH]; intros [| c s] H; simpl in *; try reflexivity.
  apply andb_true_iff in H as [Hc Hs]. now rewrite Hc, IH.
Qed.

Lemma name_char_uint (d : Decimal.uint) :
  str_forall name_char (NilEmpty.string_of_uint d) = true.
Proof. induction d; simpl; try reflexivity; exact IHd. Qed.

Lemma name_char_uint0 (d : Decimal.uint) :
  str_forall name_char (NilZero.string_of_uint d) = true.
Proof.
  destruct d; [reflexivity | ..];
    match goal with
    | |- context [NilZero.string_of_uint ?x] =>
        change (NilZero.string_of_uint x) with (NilEmpty.string_of_uint x)
    end;
    apply name_char_uint.
Qed.

Lemma name_char_str_of_int (n : Z) : str_forall name_char (str_of_int n) = true.
Proof.
  unfold str_of_int, NilZero.string_of_int.
  destruct (Z.to_int n) as [d | d]; [apply name_char_uint0 |].
  cbn [str_forall]. now rewrite name_char_uint0.
Qed.

Lemma name_char_hex_digit (n : N) : (n < 16)%N -> name_char (hex_digit n) = true.
Proof.
  intros Hn.
  assert (H : In n [0; 1; 2; 3; 4; 5; 6; 7; 8; 9; 10; 11; 12; 13; 14; 15]%N).
  { simpl. lia. }
  simpl in H. decompose [or] H; subst; try reflexivity. contradiction.
Qed.

Lemma name_char_hex_of_bytes (bs : bytes) :
  Forall (fun b => (b < 256)%N) bs -> str_forall name_char (hex_of_bytes bs) = true.
Proof.
  induction 1 as [| b bs Hb _ IH]; [reflexivity |].
  cbn [hex_of_bytes]. unfold hex_byte. rewrite !append_cons, append_nil_l.
  cbn [str_forall]. rewrite IH, !name_char_hex_digit; [reflexivity | |].
  - change 15%N with (N.ones 4). rewrite N.land_ones.
    apply N.mod_lt. discriminate.
  - rewrite N.shiftr_div_pow2. change (2 ^ 4)%N with 16%N.
    apply N.Div0.div_lt_upper_bound. exact Hb.
Qed.

Lemma be_bytes_bound (n : nat) (x : N) : Forall (fun b => (b < 256)%N) (SHA256.be_bytes n x).
Proof.
  induction n as [| n IH]; constructor; [| exact IH].
  change 255%N with (N.ones 8). rewrite N.land_ones.
  apply N.mod_lt. discriminate.
Qed.

Lemma digest_bound (msg : bytes) : Forall (fun b => (b < 256)%N) (SHA256.digest msg).
Proof.
  unfold SHA256.digest. generalize (SHA256.blocks (length (SHA256.pad msg)) SHA256.H0 (SHA256.pad msg)).
  intros ws. induction ws as [| w ws IH]; cbn [flat_map]; [constructor |].
  apply Forall_app. split; [apply be_bytes_bound | exact IH].
Qed.

(** Every cache key, with the suffix of its file, is a file name. *)
Lemma cache_key_filename (k : string) : is_cache_key k -> is_filename (k +:+ ".json") = true.
Proof.
  intros (n & d & ->). rewrite is_filename_forall. unfold cache_key_of.
  rewrite !str_forall_append, name_char_str_of_int.
  rewrite str_forall_take by (apply name_char_hex_of_bytes, digest_bound).
  reflexivity.
Qed.

(** [save_cache] then [load_cache] under a file name, in a cache
    directory that is there. *)
Lemma save_then_load (self : PRReviewer) (k review : string) (st : state)
    (files : gmap string string) :
  is_filename (k +:+ ".json") = true ->
  fs st !! cache_dir self = Some files ->
  (save_cache self k review;; load_cache self k) st
  = (Ok (JStr review),
     State (<[cache_dir self :=
               <[k +:+ ".json" := Json.dumps_member_indent2 "review" review]> files]> (fs st))
           (log st)).
Proof.
  intros Hname Hdir. rewrite bind_run. unfold save_cache, write_file.
  rewrite Hname, Hdir. unfold load_cache. rewrite bind_run.
  unfold path_exists, ask. cbn [fs log]. rewrite lookup_insert_eq.
  rewrite lookup_insert_eq.
  rewrite bool_decide_eq_true_2 by eauto.
  rewrite bind_run. unfold read_file, ask. cbn [fs log].
  rewrite !lookup_insert_eq. rewrite bind_run. unfold lift, ask.
  rewrite loads_dumps_review. reflexivity.
Qed.

(** C3. For every cache key [k] and every review string [r],
    [save_cache(k, r)] followed by [load_cache(k)] returns exactly [r];
    this in every state in which the reviewer's cache directory is
    there, as [__init__] leaves it. *)
Theorem save_load_roundtrip (self : PRReviewer) (k r : string) (st : state) :
  is_cache_key k ->
  is_Some (fs st !! cache_dir self) ->
  fst ((save_cache self k r;; load_cache self k) st) = Ok (JStr r).
Proof.
  intros Hkey [files Hdir].
  rewrite (save_then_load self k r st files); [reflexivity | | exact Hdir].
  now apply cache_key_filename.
Qed.

Lemma save_load_roundtrip_witness :
  fst ((save_cache {| cache_dir := ".cache"; client := {| base_url := ""; api_key := "" |} |}
                   "pr_42_5afde3ce" "Looks good to me.";;
        load_cache {| cache_dir := ".cache"; client := {| base_url := ""; api_key := "" |} |}
                   "pr_42_5afde3ce")
         (State {[ ".cache" := ∅ ]} []))
  = Ok (JStr "Looks good to me.").
Proof.
  apply save_load_roundtrip.
  - exists 42%Z, scenario_diff. vm_compute. reflexivity.
  - vm_compute. eauto.
Defined.

(** ** What a run leaves behind *)

Section Respects.

Context (R : state -> state -> Prop) `{!PreOrder R}.

Lemma respects_ask {A} (f : state -> result A) : respects R (ask f).
Proof. intros st. reflexivity. Qed.

Lemma respects_ret {A} (a : A) : respects R (mret a).
Proof. intros st. reflexivity. Qed.

Lemma respects_raise {A} (e : exn) : respects R (@raise A e).
Proof. intros st. reflexivity. Qed.

Lemma respects_bind {A B} (m : M A) (f : A -> M B) :
  respects R m -> (forall a, respects R (f a)) -> respects R (m ≫= f).
Proof.
  intros Hm Hf st. rewrite bind_run. specialize (Hm st).
  destruct (m st) as [[a | e] st']; simpl in *; [| exact Hm].
  etransitivity; [exact Hm | apply Hf].
Qed.

Lemma respects_handle {A} (m : M A) (h : exn -> option (M A)) :
  respects R m -> (forall e k, h e = Some k -> respects R k) ->
  respects R (handle m h).
Proof.
  intros Hm Hh st. unfold handle. specialize (Hm st).
  destruct (m st) as [[a | e] st']; simpl in *; [exact Hm |].
  destruct (h e) as [k |] eqn:Hk; [| exact Hm].
  etransitivity; [exact Hm | now apply (Hh e k)].
Qed.

Lemma respects_try_except {A} (m : M A) (h : exn -> M A) :
  respects R m -> (forall e, respects R (h e)) -> respects R (try_except m h).
Proof.
  intros Hm Hh. apply respects_handle; [exact Hm |].
  intros e k Hk. destruct (is_Exception e); [| discriminate].
  injection Hk as <-. apply Hh.
Qed.

End Respects.

#[global] Instance logs_preorder ok : PreOrder (logs ok).
Proof.
  split.
  - intros st. exists []. now rewrite app_nil_r.
  - intros st1 st2 st3 (l1 & H1 & F1) (l2 & H2 & F2). exists (l1 ++ l2).
    rewrite H2, H1, <- app_assoc, forallb_app, F1, F2. now split.
Qed.

#[global] Instance keeps_dirs_preorder : PreOrder keeps_dirs.
Proof.
  split.
  - intros st d H. exact H.
  - intros st1 st2 st3 H1 H2 d H. apply H2, H1, H.
Qed.

Lemma logs_emit ok (e : event) : ok e = true -> respects (logs ok) (emit e).
Proof. intros He st. exists [e]. simpl. now rewrite He. Qed.

Lemma logs_same_log ok {A} (m : M A) :
  (forall st, log (snd (m st)) = log st) -> respects (logs ok) m.
Proof. intros H st. exists []. now rewrite H, app_nil_r. Qed.

Lemma log_mkdir d st : log (snd (mkdir_exist_ok d st)) = log st.
Proof.
  unfold mkdir_exist_ok. destruct (is_filename d); [| reflexivity].
  now destruct (fs st !! d).
Qed.

Lemma log_write_file d name content st :
  log (snd (write_file d name content st)) = log st.
Proof.
  unfold write_file. destruct (is_filename name); [| reflexivity].
  now destruct (fs st !! d).
Qed.

Lemma log_unlink d name st : log (snd (unlink d name st)) = log st.
Proof.
  unfold unlink. destruct (fs st !! d) as [files |]; [| reflexivity].
  now destruct (files !! name).
Qed.

Lemma keeps_dirs_insert (st : state) d files l :
  keeps_dirs st (State (<[d := files]> (fs st)) l).
Proof.
  intros d' H. cbn [fs]. destruct (decide (d = d')) as [-> |].
  - rewrite lookup_insert_eq. eauto.
  - now rewrite lookup_insert_ne.
Qed.

Lemma keeps_dirs_emit (e : event) : respects keeps_dirs (emit e).
Proof. intros st d H. exact H. Qed.

Lemma keeps_dirs_mkdir d : respects keeps_dirs (mkdir_exist_ok d).
Proof.
  intros st. unfold mkdir_exist_ok. destruct (is_filename d); [| reflexivity].
  destruct (fs st !! d); [reflexivity | apply keeps_dirs_insert].
Qed.

Lemma keeps_dirs_write_file d name content : respects keeps_dirs (write_file d name content).
Proof.
  intros st. unfold write_file. destruct (is_filename name); [| reflexivity].
  destruct (fs st !! d); [apply keeps_dirs_insert | reflexivity].
Qed.

Lemma keeps_dirs_unlink d name : respects keeps_dirs (unlink d name).
Proof.
  intros st. unfold unlink. destruct (fs st !! d) as [files |]; [| reflexivity].
  destruct (files !! name); [apply keeps_dirs_insert | reflexivity].
Qed.

(** ** Walking through the program *)

Ltac unfold_program :=
  unfold main, __init__, fetch_pr_data, run_gh_command, subprocess_run, load_prompt,
    save_cache, load_cache, review_pr, chat_completions_create, post_review,
    console_print, sys_exit, lift, path_exists, read_file.

(** One step of the walk; [prim] settles the steps that change the
    state. *)
Ltac respects_step prim :=
  cbv beta zeta; cbn [negb];
  lazymatch goal with
  | |- respects _ (mbind _ _) => apply respects_bind; [exact _ | | intros ?]
  | |- respects _ (mret _) => apply respects_ret; exact _
  | |- respects _ (raise _) => apply respects_raise; exact _
  | |- respects _ (ask _) => apply respects_ask; exact _
  | |- respects _ (handle _ _) =>
      apply respects_handle;
      [exact _ |
       | let e := fresh "e" in let Hk := fresh "Hk" in
         intros e ? Hk; destruct e; try discriminate Hk; injection Hk as <-]
  | |- respects _ (try_except _ _) => apply respects_try_except; [exact _ | | intros ?]
  | |- respects _ (if ?b then _ else _) => destruct b
  | |- respects _ (match ?x with _ => _ end) => destruct x
  | |- _ => first [prim | progress unfold_program]
  end.

Ltac logs_prim :=
  idtac;
  lazymatch goal with
  | |- respects _ (emit _) => apply logs_emit; reflexivity
  | |- respects _ (mkdir_exist_ok _) => apply logs_same_log, log_mkdir
  | |- respects _ (write_file _ _ _) => apply logs_same_log, log_write_file
  | |- respects _ (unlink _ _) => apply logs_same_log, log_unlink
  end.

Ltac dirs_prim :=
  idtac;
  lazymatch goal with
  | |- respects _ (emit _) => apply keeps_dirs_emit
  | |- respects _ (mkdir_exist_ok _) => apply keeps_dirs_mkdir
  | |- respects _ (write_file _ _ _) => apply keeps_dirs_write_file
  | |- respects _ (unlink _ _) => apply keeps_dirs_unlink
  end.

Ltac walk prim := unfold_program; repeat respects_step prim.

(** No step of the program takes a directory away. *)
Lemma main_keeps_dirs W url cache dry_run : respects keeps_dirs (main W url cache dry_run).
Proof. walk dirs_prim. Qed.

Lemma bind_tail (R : state -> state -> Prop) `{!PreOrder R} {A B}
    (m : M A) (f : A -> M B) (st : state) :
  (forall a, respects R (f a)) -> R (snd (m st)) (snd ((m ≫= f) st)).
Proof.
  intros Hf. rewrite bind_run. destruct (m st) as [[a | e] st']; simpl.
  - apply Hf.
  - reflexivity.
Qed.

(** ** The cache directory and the OPENAI_BASE_URL check *)

Lemma mkdir_creates (d : string) (st : state) :
  is_filename d = true -> is_Some (fs (snd (mkdir_exist_ok d st)) !! d).
Proof.
  intros Hd. unfold mkdir_exist_ok. rewrite Hd.
  destruct (fs st !! d) eqn:E; simpl.
  - rewrite E. eauto.
  - rewrite lookup_insert_eq. eauto.
Qed.

Lemma mkdir_ok (d : string) (st : state) :
  is_filename d = true -> fst (mkdir_exist_ok d st) = Ok tt.
Proof.
  intros Hd. unfold mkdir_exist_ok. rewrite Hd. now destruct (fs st !! d).
Qed.

(** C10. Constructing the reviewer makes the cache directory, .cache
    by default, before it looks at OPENAI_BASE_URL: after [__init__],
    however it ends, the directory is there; and so it is after every
    run of [main], the run that stops for want of OPENAI_BASE_URL
    included. *)
Theorem cache_dir_created (W : World) :
  (forall st, is_Some (fs (snd (__init__ W ".cache" st)) !! ".cache"))
  /\ (forall url cache dry_run st,
        is_Some (fs (snd (main W url cache dry_run st)) !! ".cache")).
Proof.
  assert (Hinit : forall st, is_Some (fs (snd (__init__ W ".cache" st)) !! ".cache")).
  { intros st. unfold __init__.
    eapply (bind_tail keeps_dirs); [| apply mkdir_creates; reflexivity].
    intros _. repeat respects_step dirs_prim. }
  split; [exact Hinit |].
  intros url cache dry_run st. unfold main.
  eapply (bind_tail keeps_dirs); [| apply Hinit].
  intros reviewer. repeat respects_step dirs_prim.
Qed.

(** [__init__] without a base URL: the directory, two lines on the
    console, [sys.exit(1)]. *)
Lemma init_without_base_url (W : World) (d : string) (st : state) :
  is_filename d = true ->
  environ W !! "OPENAI_BASE_URL" = None \/ environ W !! "OPENAI_BASE_URL" = Some "" ->
  __init__ W d st
  = (Raise (SystemExit 1),
     State (fs (snd (mkdir_exist_ok d st)))
           (log st ++
            [Print (Text "[red]Error: OPENAI_BASE_URL environment variable must be set[/red]");
             Print (Text "[yellow]Example: export OPENAI_BASE_URL=https://api.openai.com/v1[/yellow]")])).
Proof.
  intros Hd Henv. unfold __init__. rewrite bind_run.
  pose proof (mkdir_ok d st Hd) as Hok. pose proof (log_mkdir d st) as Hlog.
  destruct (mkdir_exist_ok d st) as [r st1]. simpl in Hok, Hlog. subst r.
  assert (Hmissing : negb match environ W !! "OPENAI_BASE_URL" with
                          | Some u => negb (String.eqb u "")
                          | None => false
                          end = true).
  { now destruct Henv as [-> | ->]. }
  rewrite Hmissing. unfold console_print, sys_exit, emit, raise.
  rewrite !bind_run. cbn [fs log snd]. rewrite Hlog, <- app_assoc. reflexivity.
Qed.

(** C7. In every run in which OPENAI_BASE_URL is unset, or empty, the
    program prints the two lines that explain it and ends with
    [sys.exit(1)], so with exit status 1; and these two lines are all
    the run adds to its events: no subprocess is started and no request
    is sent. *)
Theorem missing_base_url_aborts (W : World) (url : string) (cache dry_run : bool)
    (st : state) :
  environ W !! "OPENAI_BASE_URL" = None \/ environ W !! "OPENAI_BASE_URL" = Some "" ->
  fst (main W url cache dry_run st) = Raise (SystemExit 1)
  /\ exit_status (fst (main W url cache dry_run st)) = Some 1%Z
  /\ log (snd (main W url cache dry_run st))
     = log st ++
       [Print (Text "[red]Error: OPENAI_BASE_URL environment variable must be set[/red]");
        Print (Text "[yellow]Example: export OPENAI_BASE_URL=https://api.openai.com/v1[/yellow]")].
Proof.
  intros Henv. unfold main. rewrite bind_run.
  rewrite (init_without_base_url W ".cache" st eq_refl Henv). auto.
Qed.

Lemma missing_base_url_aborts_witness :
  fst (main (scenario_world false true) scenario_url true false empty_state)
  = Raise (SystemExit 1)
  /\ exit_status (fst (main (scenario_world false true) scenario_url true false empty_state))
     = Some 1%Z
  /\ log (snd (main (scenario_world false true) scenario_url true false empty_state))
     = log empty_state ++
       [Print (Text "[red]Error: OPENAI_BASE_URL environment variable must be set[/red]");
        Print (Text "[yellow]Example: export OPENAI_BASE_URL=https://api.openai.com/v1[/yellow]")].
Proof.
  apply missing_base_url_aborts. left. reflexivity.
Defined.

(** ** Posting *)

(** [run_gh_command] step by step: the call is logged, then [gh]
    answers. *)
Lemma run_gh_command_run (W : World) (cmd : list string) (st : state) :
  run_gh_command W cmd st
  = let st1 := State (fs st) (log st ++ [Run ("gh" :: cmd)]) in
    match gh W st1 ("gh" :: cmd) with
    | None => (Raise (FileNotFoundError "gh"), st1)
    | Some p =>
        if (returncode p =? 0)%Z then (Ok (py_strip (stdout p)), st1)
        else (Raise (SystemExit 1),
              State (fs st)
                    (log st1 ++
                     [Print (Text ("[red]Error running gh command: " +:+ stderr p +:+ "[/red]"))]))
    end.
Proof.
  unfold run_gh_command, handle, subprocess_run. rewrite !bind_run.
  unfold emit, ask. cbn [fs log].
  destruct (gh W _ _) as [p |]; [| reflexivity].
  destruct (returncode p =? 0)%Z; reflexivity.
Qed.




(** ** The orchestration *)

Lemma bind_assoc_run {A B C} (m : M A) (f : A -> M B) (g : B -> M C) (st : state) :
  ((m ≫= f) ≫= g) st = (m ≫= fun a => f a ≫= g) st.
Proof. rewrite !bind_run. now destruct (m st) as [[a | e] st']. Qed.

Lemma mret_bind_run {A B} (a : A) (f : A -> M B) (st : state) :
  (mret a ≫= f) st = f a st.
Proof. reflexivity. Qed.

(** Two sequences that start with the same step agree when they agree
    after it. *)
Lemma bind_ext_run {A B} (m : M A) (f g : A -> M B) (st : state) :
  (forall a st', f a st' = g a st') -> (m ≫= f) st = (m ≫= g) st.
Proof.
  intros H. rewrite !bind_run. destruct (m st) as [[a | e] st']; [apply H | reflexivity].
Qed.

Lemma try_except_ext_run {A} (m m' : M A) h (st : state) :
  m st = m' st -> try_except m h st = try_except m' h st.
Proof. intros H. unfold try_except, handle. now rewrite H. Qed.


(** [main] is these steps in sequence. *)
Lemma main_stages (W : World) (pr_url : string) (cache dry_run : bool) (st : state) :
  main W pr_url cache dry_run st
  = (reviewer ← __init__ W ".cache";
     try_except
       ('(owner, repo, pr_number, review) ← obtain_review W reviewer pr_url cache;
        display review;;
        finish W reviewer owner repo pr_number review dry_run)
       on_error) st.
Proof.
  unfold main. apply bind_ext_run. intros reviewer st1.
  apply try_except_ext_run.
  unfold obtain_review, fetch_stage, lookup_stage, generate_stage, display, finish.
  rewrite ?bind_assoc_run. apply bind_ext_run. intros [[owner repo] pr_number] st2.
  do 4 (rewrite ?bind_assoc_run; apply bind_ext_run; intros ? ?).
  rewrite ?bind_assoc_run, mret_bind_run. cbv beta iota.
  do 2 (rewrite ?bind_assoc_run; apply bind_ext_run; intros ? ?).
  now rewrite mret_bind_run.
Qed.

(** ** Dry runs *)



(** ** Cache hits *)



Lemma init_cache_dir (W : World) (d : string) (st st1 : state) (reviewer : PRReviewer) :
  __init__ W d st = (Ok reviewer, st1) -> cache_dir reviewer = d.
Proof.
  unfold __init__. rewrite bind_run. destruct (mkdir_exist_ok d st) as [[[] | e] st'];
    [| discriminate].
  destruct (negb _).
  - unfold console_print, emit, sys_exit, raise. rewrite !bind_run. discriminate.
  - intros H. now injection H as <- _.
Qed.





Example scenario_key_computed :
  get_cache_key scenario_fetched_data = Ok scenario_key.
Proof. vm_compute. reflexivity. Qed.



(** The dry runs of the scenario: a review from the service, a review
    from the cache. *)
Example dry_run_fresh :
  main (scenario_world true true) scenario_url false true scenario_ready
  = (Ok tt,
     State (fs scenario_ready)
           (log (scenario_fetched "")
            ++ [TaskAdded "Generating AI review...";
                Print (Text "[cyan]Sending PR for review...[/cyan]");
                Completion "google:gemini-2.5-pro" "Review this pull request."
                  (match user_message_of scenario_fetched_data "foo.txt" "acme/widgets" with
                   | Ok text => text
                   | Raise _ => ""
                   end);
                TaskUpdated "Review generated";
                review_header; Print (Shown (JStr "Looks good to me.")); dry_run_notice])).
Proof. vm_compute. reflexivity. Qed.

Example dry_run_cached :
  main (scenario_world true true) scenario_url true true (scenario_cache "Cached words.")
  = (Ok tt,
     State (fs (scenario_cache "Cached words."))
           (log (scenario_fetched "")
            ++ cache_hit_events (JStr "Cached words.") ++ [dry_run_notice])).
Proof. vm_compute. reflexivity. Qed.

(** * Further properties of the code *)

(** ** parse_pr_url: what it returns *)

(** X1. [parse_pr_url] returns (o, r, n) exactly for the texts that
    start with https://github.com/o/r/pull/n, o and r without a slash
    and not empty, n the whole run of digits after /pull/: what comes
    next is not a digit. *)
Theorem parse_pr_url_groups (url o r n : string) :
  parse_pr_url url = Ok (o, r, n)
  <-> exists rest,
        url = pr_url o r n +:+ rest /\ segment o /\ segment r /\ numeral n
        /\ stops Json.is_digit rest = true.
Proof.
  split; [apply parse_pr_url_sound |].
  intros (rest & -> & Ho & Hr & Hn & Hrest). now apply parse_pr_url_prefix.
Qed.

(** X2. The three parts of a parsed URL, put back into the form
    https://github.com/o/r/pull/n, parse to the same three parts. *)
Theorem parse_pr_url_reparse (url o r n : string) :
  parse_pr_url url = Ok (o, r, n) ->
  parse_pr_url (pr_url o r n) = Ok (o, r, n).
Proof.
  intros H. apply parse_pr_url_sound in H as (rest & _ & Ho & Hr & Hn & _).
  rewrite <- (append_nil_r (pr_url o r n)). now apply parse_pr_url_prefix.
Qed.

Lemma parse_pr_url_reparse_witness :
  parse_pr_url (pr_url "acme" "widgets" "42") = Ok ("acme", "widgets", "42").
Proof.
  apply (parse_pr_url_reparse "https://github.com/acme/widgets/pull/42/files").
  vm_compute. reflexivity.
Defined.

(** ** str.strip *)

Lemma py_lstrip_stops (s : string) : stops py_isspace (py_lstrip s) = true.
Proof.
  induction s as [| c s IH]; [reflexivity |]. simpl.
  destruct (py_isspace c) eqn:E; [exact IH |]. simpl. now rewrite E.
Qed.

Lemma py_rstrip_last (s : string) (c : ascii) :
  last_char (py_rstrip s) = Some c -> py_isspace c = false.
Proof.
  induction s as [| a s IH]; [discriminate |]. simpl.
  destruct (py_rstrip s) as [| b r].
  - destruct (py_isspace a) eqn:E; [discriminate |].
    intros H. injection H as <-. exact E.
  - exact IH.
Qed.

Lemma py_rstrip_first (s : string) :
  stops py_isspace s = true -> first_char (py_rstrip s) = first_char s \/ py_rstrip s = "".
Proof.
  destruct s as [| a s]; [now left |]. simpl. intros Ha.
  destruct (py_rstrip s); [| now left].
  destruct (py_isspace a); [discriminate | now left].
Qed.

Lemma py_strip_trimmed (s : string) : trimmed (py_strip s).
Proof.
  unfold py_strip. split; [| apply py_rstrip_last].
  intros c Hc. pose proof (py_lstrip_stops s) as Hs.
  destruct (py_rstrip_first _ Hs) as [E | E]; rewrite E in Hc; [| discriminate].
  destruct (py_lstrip s) as [| a t]; [discriminate |].
  injection Hc as <-. simpl in Hs. now apply negb_true_iff.
Qed.

(** ** run_gh_command *)

(** [run_gh_command] when it returns. *)
Lemma run_gh_command_ok (W : World) (cmd : list string) (st st' : state) (out : string) :
  run_gh_command W cmd st = (Ok out, st') ->
  st' = State (fs st) (log st ++ [Run ("gh" :: cmd)])
  /\ exists p, gh W st' ("gh" :: cmd) = Some p
               /\ returncode p = 0%Z /\ out = py_strip (stdout p).
Proof.
  rewrite run_gh_command_run. cbv zeta.
  destruct (gh W _ _) as [p |] eqn:Hgh; [| discriminate].
  destruct (returncode p =? 0)%Z eqn:Hrc; [| discriminate].
  intros H. injection H as <- <-. split; [reflexivity |].
  exists p. repeat split; [exact Hgh | now apply Z.eqb_eq].
Qed.

(** X3. When [run_gh_command] returns, gh has been run once, with the
    arguments after the word gh, and has returned 0; the text returned
    is its output without the white space at its ends; no file has
    changed. *)
Theorem run_gh_command_returns (W : World) (cmd : list string) (st st' : state)
    (out : string) :
  run_gh_command W cmd st = (Ok out, st') ->
  fs st' = fs st
  /\ log st' = log st ++ [Run ("gh" :: cmd)]
  /\ (exists p, gh W st' ("gh" :: cmd) = Some p
                /\ returncode p = 0%Z /\ out = py_strip (stdout p))
  /\ trimmed out.
Proof.
  intros H. apply run_gh_command_ok in H as (-> & p & Hgh & Hrc & ->).
  repeat split; try apply py_strip_trimmed.
  exists p. now repeat split.
Qed.

Lemma run_gh_command_returns_witness :
  let st := snd (run_gh_command (scenario_world true true)
                   ["pr"; "diff"; "42"; "--repo"; "acme/widgets"] scenario_ready) in
  fs st = fs scenario_ready
  /\ log st = log scenario_ready ++ [Run ["gh"; "pr"; "diff"; "42"; "--repo"; "acme/widgets"]]
  /\ (exists p, gh (scenario_world true true) st
                   ["gh"; "pr"; "diff"; "42"; "--repo"; "acme/widgets"] = Some p
                /\ returncode p = 0%Z
                /\ "+foo" +:+ String (chr 10) "-bar" = py_strip (stdout p))
  /\ trimmed ("+foo" +:+ String (chr 10) "-bar").
Proof.
  apply (run_gh_command_returns (scenario_world true true)
           ["pr"; "diff"; "42"; "--repo"; "acme/widgets"] scenario_ready).
  vm_compute. reflexivity.
Defined.

(** ** get_cache_key: the shape of a key *)

Lemma str_forall_uint (p : ascii -> bool) (d : Decimal.uint) :
  (forall c, Json.is_digit c = true -> p c = true) ->
  str_forall p (NilEmpty.string_of_uint d) = true.
Proof.
  intros Hp. induction d; simpl; try reflexivity;
    (rewrite Hp by reflexivity); exact IHd.
Qed.

Lemma str_forall_str_of_int (p : ascii -> bool) (n : Z) :
  p "-"%char = true ->
  (forall c, Json.is_digit c = true -> p c = true) ->
  str_forall p (str_of_int n) = true.
Proof.
  intros Hminus Hp.
  assert (H0 : forall d, str_forall p (NilZero.string_of_uint d) = true).
  { intros d. destruct d; [simpl; now rewrite Hp | ..];
      match goal with
      | |- context [NilZero.string_of_uint ?x] =>
          change (NilZero.string_of_uint x) with (NilEmpty.string_of_uint x)
      end;
      now apply str_forall_uint. }
  unfold str_of_int, NilZero.string_of_int.
  destruct (Z.to_int n) as [d | d]; [apply H0 |].
  cbn [str_forall]. now rewrite Hminus, H0.
Qed.

(** [str] of an [int] is read back to the [int]. *)
Lemma str_of_int_inj (n m : Z) : str_of_int n = str_of_int m -> n = m.
Proof.
  unfold str_of_int. intros H. apply DecimalZ.to_int_inj.
  assert (Hisi : forall z, NilZero.int_of_string (NilZero.string_of_int (Z.to_int z))
                           = Some (Z.to_int z)).
  { intros z. apply NilZero.isi; destruct z; simpl; try discriminate;
      intros E; injection E as E; now apply DecimalPos.Unsigned.to_uint_nonnil in E. }
  pose proof (Hisi n) as Hn. rewrite H, Hisi in Hn. now injection Hn.
Qed.

(** X4. Two PR records with different numbers never get the same cache
    key, whatever their diffs. *)
Theorem get_cache_key_number (a b : PRData) (n m : Z) :
  subscript (pr a) "number" = Ok (JInt n) ->
  subscript (pr b) "number" = Ok (JInt m) ->
  n <> m ->
  get_cache_key a <> get_cache_key b.
Proof.
  intros Ha Hb Hnm.
  rewrite (get_cache_key_format a (JInt n) (str_of_int n) Ha eq_refl).
  rewrite (get_cache_key_format b (JInt m) (str_of_int m) Hb eq_refl).
  generalize (str_take 8 (SHA256.hexdigest (encode (diff a)))).
  generalize (str_take 8 (SHA256.hexdigest (encode (diff b)))).
  intros hb ha H. injection H as H.
  rewrite ?append_cons, ?append_nil_l in H.
  assert (Hrun : forall z, str_forall (Re.cmatch (Re.CNot "_")) (str_of_int z) = true).
  { intros z. apply str_forall_str_of_int; [reflexivity |].
    intros c Hc. unfold Json.is_digit, Json.code_in, ord in Hc.
    simpl. apply negb_true_iff, Ascii.eqb_neq. intros ->. discriminate Hc. }
  apply (f_equal (span (Re.CNot "_"))) in H.
  rewrite !span_exact in H by (reflexivity || apply Hrun).
  injection H as H _. now apply Hnm, str_of_int_inj.
Qed.

Lemma get_cache_key_number_witness :
  get_cache_key scenario_data
  <> get_cache_key {| pr := JDict [("number", JInt 43)]; diff := diff scenario_data;
                      files := JList [] |}.
Proof.
  apply (get_cache_key_number scenario_data _ 42 43); [reflexivity | reflexivity | lia].
Defined.

Lemma length_str_take (n : nat) (s : string) :
  n <= String.length s -> String.length (str_take n s) = n.
Proof.
  revert s. induction n as [| n IH]; intros [| c s] H; simpl in *; try lia.
  now rewrite IH by lia.
Qed.

Lemma length_hex_of_bytes (bs : bytes) :
  String.length (hex_of_bytes bs) = 2 * length bs.
Proof.
  induction bs as [| b bs IH]; [reflexivity |].
  cbn [hex_of_bytes length]. unfold hex_byte.
  rewrite !append_cons, append_nil_l. cbn [String.length]. lia.
Qed.

Lemma length_blocks (fuel : nat) (h : list N) (bs : bytes) :
  length h = 8 -> length (SHA256.blocks fuel h bs) = 8.
Proof.
  revert h bs. induction fuel as [| f IH]; intros h bs Hh; [exact Hh |].
  cbn [SHA256.blocks]. destruct bs; [exact Hh |]. now apply IH.
Qed.

(** A digest is 32 bytes. *)
Lemma length_digest (msg : bytes) : length (SHA256.digest msg) = 32.
Proof.
  unfold SHA256.digest.
  pose proof (length_blocks (length (SHA256.pad msg)) SHA256.H0 (SHA256.pad msg) eq_refl) as H.
  destruct (SHA256.blocks _ _ _) as [| a [| b [| c [| d [| e [| f [| g [| h [| ? ?]]]]]]]]];
    try discriminate H.
  reflexivity.
Qed.

Lemma lower_hex_digit (n : N) : (n < 16)%N -> lower_hex (hex_digit n) = true.
Proof.
  intros Hn.
  assert (H : In n [0; 1; 2; 3; 4; 5; 6; 7; 8; 9; 10; 11; 12; 13; 14; 15]%N).
  { simpl. lia. }
  simpl in H. decompose [or] H; subst; try reflexivity. contradiction.
Qed.

Lemma lower_hex_of_bytes (bs : bytes) :
  Forall (fun b => (b < 256)%N) bs -> str_forall lower_hex (hex_of_bytes bs) = true.
Proof.
  induction 1 as [| b bs Hb _ IH]; [reflexivity |].
  cbn [hex_of_bytes]. unfold hex_byte. rewrite !append_cons, append_nil_l.
  cbn [str_forall]. rewrite IH, !lower_hex_digit; [reflexivity | |].
  - change 15%N with (N.ones 4). rewrite N.land_ones.
    apply N.mod_lt. discriminate.
  - rewrite N.shiftr_div_pow2. change (2 ^ 4)%N with 16%N.
    apply N.Div0.div_lt_upper_bound. exact Hb.
Qed.

(** X5. The key of a PR record with an integer number is [pr_], the
    number in decimal, [_], and exactly eight lower-case hexadecimal
    digits. *)
Theorem get_cache_key_shape (pr_data : PRData) (n : Z) :
  subscript (pr pr_data) "number" = Ok (JInt n) ->
  exists h,
    get_cache_key pr_data = Ok ("pr_" +:+ str_of_int n +:+ "_" +:+ h)
    /\ String.length h = 8
    /\ str_forall lower_hex h = true.
Proof.
  intros H. exists (str_take 8 (SHA256.hexdigest (encode (diff pr_data)))).
  split; [exact (get_cache_key_format pr_data (JInt n) (str_of_int n) H eq_refl) |].
  unfold SHA256.hexdigest. split.
  - apply length_str_take. rewrite length_hex_of_bytes, length_digest. lia.
  - apply str_forall_take, lower_hex_of_bytes, digest_bound.
Qed.

Lemma get_cache_key_shape_witness :
  exists h,
    get_cache_key scenario_data = Ok ("pr_" +:+ str_of_int 42 +:+ "_" +:+ h)
    /\ String.length h = 8
    /\ str_forall lower_hex h = true.
Proof.
  apply (get_cache_key_shape scenario_data 42). reflexivity.
Defined.

(** ** The cache store: what is read and what is written *)

(** [load_cache] as a function of the content of its file. *)
Lemma load_cache_run (self : PRReviewer) (k : string) (st : state) :
  load_cache self k st
  = (match file_content st (cache_dir self) (k +:+ ".json") with
     | None => Ok JNull
     | Some text =>
         match Json.loads text with
         | Ok data => py_get data "review" JNull
         | Raise e => Raise e
         end
     end, st).
Proof.
  unfold load_cache, file_content. rewrite bind_run. unfold path_exists, ask.
  destruct (fs st !! cache_dir self) as [files |] eqn:Hdir; [| reflexivity].
  destruct (files !! (k +:+ ".json")) as [text |] eqn:Hfile.
  - rewrite bool_decide_eq_true_2 by eauto.
    rewrite bind_run. unfold read_file, ask. rewrite Hdir, Hfile.
    rewrite bind_run. unfold lift, ask.
    destruct (Json.loads text); reflexivity.
  - rewrite bool_decide_eq_false_2; [reflexivity |].
    intros [x Hx]. discriminate Hx.
Qed.

(** X6. [load_cache] changes nothing, neither a file nor what is
    shown, and what it returns or raises depends on the state through
    the content of the one file [<key>.json] of the cache directory
    only. *)
Theorem load_cache_reads_one_file (self : PRReviewer) (k : string) (st : state) :
  snd (load_cache self k st) = st
  /\ forall st',
       file_content st' (cache_dir self) (k +:+ ".json")
       = file_content st (cache_dir self) (k +:+ ".json") ->
       fst (load_cache self k st') = fst (load_cache self k st).
Proof.
  split; [now rewrite load_cache_run |].
  intros st' H. rewrite !load_cache_run. cbn [fst]. now rewrite H.
Qed.

Lemma append_inj_l (s1 s2 t : string) : s1 +:+ t = s2 +:+ t -> s1 = s2.
Proof.
  revert s2. induction s1 as [| c s1 IH]; intros [| d s2] H; str_simpl.
  - reflexivity.
  - apply (f_equal String.length) in H. simpl in H. rewrite length_append in H. lia.
  - apply (f_equal String.length) in H. simpl in H. rewrite length_append in H. lia.
  - injection H as -> H. f_equal. now apply IH.
Qed.

Lemma save_cache_run (self : PRReviewer) (k review : string) (st st1 : state) :
  save_cache self k review st = (Ok tt, st1) ->
  exists files,
    fs st !! cache_dir self = Some files
    /\ st1 = State (<[cache_dir self :=
                       <[k +:+ ".json" := Json.dumps_member_indent2 "review" review]> files]>
                      (fs st))
                   (log st).
Proof.
  unfold save_cache, write_file.
  destruct (is_filename (k +:+ ".json")); [| discriminate].
  destruct (fs st !! cache_dir self) as [files |]; [| discriminate].
  intros H. injection H as <-. now exists files.
Qed.

(** X7. When [save_cache] returns, it has written the one file
    [<key>.json] of the cache directory: every other file is as it
    was, nothing was shown, and [load_cache] of any other key gives
    what it gave before. *)
Theorem save_cache_writes_one_file (self : PRReviewer) (k review : string)
    (st st1 : state) :
  save_cache self k review st = (Ok tt, st1) ->
  log st1 = log st
  /\ (forall d name,
        (d, name) <> (cache_dir self, k +:+ ".json") ->
        file_content st1 d name = file_content st d name)
  /\ (forall k', k' <> k -> fst (load_cache self k' st1) = fst (load_cache self k' st)).
Proof.
  intros H. apply save_cache_run in H as (files & Hdir & ->).
  assert (Hframe : forall d name,
             (d, name) <> (cache_dir self, k +:+ ".json") ->
             file_content
               (State (<[cache_dir self :=
                          <[k +:+ ".json" := Json.dumps_member_indent2 "review" review]> files]>
                         (fs st)) (log st)) d name
             = file_content st d name).
  { intros d name Hne. unfold file_content. cbn [fs].
    destruct (decide (d = cache_dir self)) as [-> | Hd].
    - rewrite lookup_insert_eq, Hdir. apply lookup_insert_ne. congruence.
    - now rewrite lookup_insert_ne by congruence. }
  split; [reflexivity |]. split; [exact Hframe |].
  intros k' Hk'. rewrite !load_cache_run. cbn [fst].
  rewrite Hframe; [reflexivity |].
  intros E. injection E as E. now apply append_inj_l in E.
Qed.

Lemma save_cache_writes_one_file_witness :
  let st1 := State {[ ".cache" := {[ "pr_42_5afde3ce.json" :=
                                       Json.dumps_member_indent2 "review" "Fine." ]} ]} [] in
  log st1 = log scenario_ready
  /\ (forall d name,
        (d, name) <> (cache_dir scenario_self, "pr_42_5afde3ce" +:+ ".json") ->
        file_content st1 d name = file_content scenario_ready d name)
  /\ (forall k', k' <> "pr_42_5afde3ce" ->
        fst (load_cache scenario_self k' st1) = fst (load_cache scenario_self k' scenario_ready)).
Proof.
  apply (save_cache_writes_one_file scenario_self "pr_42_5afde3ce" "Fine." scenario_ready).
  vm_compute. reflexivity.
Defined.

Lemma plain_escape_char (c : ascii) : str_forall plain_char (Json.escape_char c) = true.
Proof. destruct c as [[] [] [] [] [] [] [] []]; reflexivity. Qed.

Lemma plain_escape (s : string) : str_forall plain_char (Json.escape s) = true.
Proof.
  induction s as [| c s IH]; [reflexivity |].
  cbn [Json.escape]. now rewrite str_forall_append, plain_escape_char, IH.
Qed.

(** X8. The file [save_cache] writes is plain ASCII, whatever the
    characters of the review: printable characters and line ends. *)
Theorem save_cache_writes_ascii (self : PRReviewer) (k review : string)
    (st st1 : state) :
  save_cache self k review st = (Ok tt, st1) ->
  exists text,
    file_content st1 (cache_dir self) (k +:+ ".json") = Some text
    /\ str_forall plain_char text = true.
Proof.
  intros H. apply save_cache_run in H as (files & Hdir & ->).
  exists (Json.dumps_member_indent2 "review" review). split.
  - unfold file_content. cbn [fs]. now rewrite !lookup_insert_eq.
  - rewrite dumps_member_shape. cbn [str_forall].
    rewrite !str_forall_append. cbn [str_forall].
    rewrite !str_forall_append. cbn [str_forall].
    now rewrite !plain_escape.
Qed.

Lemma save_cache_writes_ascii_witness :
  exists text,
    file_content
      (snd (save_cache scenario_self "pr_42_5afde3ce" (String (chr 233) "t" +:+ String (chr 10) "")
                       scenario_ready))
      (cache_dir scenario_self) ("pr_42_5afde3ce" +:+ ".json") = Some text
    /\ str_forall plain_char text = true.
Proof.
  apply (save_cache_writes_ascii scenario_self "pr_42_5afde3ce"
           (String (chr 233) "t" +:+ String (chr 10) "") scenario_ready).
  vm_compute. reflexivity.
Defined.

(** ** fetch_pr_data and review_pr: what they leave alone *)

#[global] Instance same_fs_preorder : PreOrder same_fs.
Proof.
  split; [intros st; reflexivity |].
  intros st1 st2 st3 H12 H23. unfold same_fs in *. congruence.
Qed.

Ltac fs_prim :=
  idtac;
  lazymatch goal with
  | |- respects _ (emit _) => intros ?; reflexivity
  end.

(** X9. [fetch_pr_data] only reads: whatever [gh] answers, it changes
    no file, asks for no completion, and the only programs it runs are
    [gh pr view] and [gh pr diff]. *)
Theorem fetch_pr_data_read_only (W : World) (owner repo pr_number : string) (st : state) :
  fs (snd (fetch_pr_data W owner repo pr_number st)) = fs st
  /\ logs is_query st (snd (fetch_pr_data W owner repo pr_number st)).
Proof.
  split.
  - assert (H : respects same_fs (fetch_pr_data W owner repo pr_number)) by walk fs_prim.
    apply H.
  - assert (H : respects (logs is_query) (fetch_pr_data W owner repo pr_number))
      by walk logs_prim.
    apply H.
Qed.

Lemma review_pr_read_only_fs (W : World) (self : PRReviewer) (pr_data : PRData) (st : state) :
  fs (snd (review_pr W self pr_data st)) = fs st.
Proof.
  assert (H : respects same_fs (review_pr W self pr_data)) by walk fs_prim.
  apply H.
Qed.

(** X10. [review_pr] changes no file and runs no program, however it
    ends. *)
Theorem review_pr_read_only (W : World) (self : PRReviewer) (pr_data : PRData) (st : state) :
  fs (snd (review_pr W self pr_data st)) = fs st
  /\ logs not_run st (snd (review_pr W self pr_data st)).
Proof.
  split; [apply review_pr_read_only_fs |].
  - assert (H : respects (logs not_run) (review_pr W self pr_data)) by walk logs_prim.
    apply H.
Qed.

(** ** review_pr: the request and its failures *)

(** X11. Without gemini_prompt.yaml, [review_pr] shows that the file
    was not found and exits with status 1, whatever the record: the
    prompt is read first, so this comes before any error in the record,
    and no completion is asked for. *)
Theorem review_pr_without_prompt (W : World) (self : PRReviewer) (pr_data : PRData)
    (st : state) :
  prompt_file W = None ->
  review_pr W self pr_data st
  = (Raise (SystemExit 1),
     State (fs st) (log st ++ [Print (Text "[red]Error: gemini_prompt.yaml not found[/red]")])).
Proof.
  intros H. unfold review_pr, load_prompt. rewrite H. reflexivity.
Qed.

Lemma review_pr_without_prompt_witness :
  review_pr {| environ := ∅; gh := fun _ _ => None;
               completion := fun _ _ _ => Ok "";
               prompt_file := None |}
            scenario_self scenario_data scenario_ready
  = (Raise (SystemExit 1),
     State (fs scenario_ready)
           (log scenario_ready ++ [Print (Text "[red]Error: gemini_prompt.yaml not found[/red]")])).
Proof. apply review_pr_without_prompt. reflexivity. Defined.

(** [review_pr] once the prompt is read and the user message built. *)
Lemma review_pr_run (W : World) (self : PRReviewer) (pr_data : PRData) (st : state)
    (prompt files_info repo_url user_message : string) :
  prompt_file W = Some (Ok prompt) ->
  files_info_of (files pr_data) = Ok files_info ->
  repo_url_of (pr pr_data) = Ok repo_url ->
  user_message_of pr_data files_info repo_url = Ok user_message ->
  review_pr W self pr_data st
  = let st1 := State (fs st) (log st ++ review_request prompt user_message) in
    match completion W st1 prompt user_message with
    | Ok text => (Ok text, st1)
    | Raise e =>
        if is_Exception e then
          (Raise (SystemExit 1),
           State (fs st)
                 (log st1 ++ [Print (ErrorText "[red]Error calling AI service: " e "[/red]")]))
        else (Raise e, st1)
    end.
Proof.
  intros Hp Hfi Hru Hum.
  unfold review_pr, load_prompt. rewrite Hp.
  rewrite bind_run. unfold lift at 1, ask at 1. cbv beta iota.
  rewrite bind_run. unfold lift at 1, ask at 1. rewrite Hfi. cbv beta iota.
  rewrite bind_run. unfold lift at 1, ask at 1. rewrite Hru. cbv beta iota.
  rewrite bind_run. unfold lift at 1, ask at 1. rewrite Hum. cbv beta iota.
  rewrite bind_run. unfold console_print at 1, emit at 1. cbv beta iota.
  unfold try_except, handle, chat_completions_create.
  rewrite bind_run. unfold emit at 1, ask at 1. cbn [fs log].
  unfold review_request. rewrite <- app_assoc. cbn [app]. cbv zeta.
  destruct (completion W _ prompt user_message) as [text | e]; [reflexivity |].
  destruct (is_Exception e); reflexivity.
Qed.

(** X12. When [review_pr] returns a text, it has read the prompt, built
    the user message from the record, shown that the PR is sent, and
    asked once for a completion, of the model google:gemini-2.5-pro,
    with the prompt as system message; the text is the answer. *)
Theorem review_pr_returns (W : World) (self : PRReviewer) (pr_data : PRData)
    (st st' : state) (text : string) :
  review_pr W self pr_data st = (Ok text, st') ->
  exists prompt files_info repo_url user_message,
    prompt_file W = Some (Ok prompt)
    /\ files_info_of (files pr_data) = Ok files_info
    /\ repo_url_of (pr pr_data) = Ok repo_url
    /\ user_message_of pr_data files_info repo_url = Ok user_message
    /\ st' = State (fs st) (log st ++ review_request prompt user_message)
    /\ completion W st' prompt user_message = Ok text.
Proof.
  intros H.
  destruct (prompt_file W) as [[prompt | e] |] eqn:Hp;
    [| unfold review_pr, load_prompt in H; rewrite Hp in H; discriminate H..].
  destruct (files_info_of (files pr_data)) as [files_info | e] eqn:Hfi; cycle 1.
  { unfold review_pr, load_prompt, lift, ask in H. rewrite Hp, !bind_run, Hfi in H.
    discriminate H. }
  destruct (repo_url_of (pr pr_data)) as [repo_url | e] eqn:Hru; cycle 1.
  { unfold review_pr, load_prompt, lift, ask in H. rewrite Hp, !bind_run, Hfi in H.
    cbv beta iota in H. rewrite !bind_run, Hru in H. discriminate H. }
  destruct (user_message_of pr_data files_info repo_url) as [user_message | e] eqn:Hum;
    cycle 1.
  { unfold review_pr, load_prompt, lift, ask in H. rewrite Hp, !bind_run, Hfi in H.
    cbv beta iota in H. rewrite !bind_run, Hru in H.
    cbv beta iota in H. rewrite !bind_run, Hum in H. discriminate H. }
  rewrite (review_pr_run W self pr_data st prompt files_info repo_url user_message
             Hp Hfi Hru Hum) in H.
  cbv zeta in H.
  destruct (completion W _ prompt user_message) as [answer | e] eqn:Hc.
  - injection H as -> <-. exists prompt, files_info, repo_url, user_message.
    repeat split; assumption.
  - destruct (is_Exception e); discriminate H.
Qed.

Lemma review_pr_returns_witness :
  exists prompt files_info repo_url user_message,
    prompt_file (scenario_world true true) = Some (Ok prompt)
    /\ files_info_of (files scenario_data) = Ok files_info
    /\ repo_url_of (pr scenario_data) = Ok repo_url
    /\ user_message_of scenario_data files_info repo_url = Ok user_message
    /\ snd (review_pr (scenario_world true true) scenario_self scenario_data scenario_ready)
       = State (fs scenario_ready) (log scenario_ready ++ review_request prompt user_message)
    /\ completion (scenario_world true true)
         (snd (review_pr (scenario_world true true) scenario_self scenario_data scenario_ready))
         prompt user_message
       = Ok "Looks good to me.".
Proof.
  apply (review_pr_returns (scenario_world true true) scenario_self scenario_data
           scenario_ready).
  vm_compute. reflexivity.
Defined.



(** ** review_pr: the repository and the files of the user message *)

Lemma before_first_cons (sep : string) (c : ascii) (s : string) :
  before_first sep (String c s)
  = match strip_prefix sep (String c s) with
    | Some _ => ""
    | None => String c (before_first sep s)
    end.
Proof. reflexivity. Qed.

Lemma not_slash_eqb (c : ascii) : not_slash c = true -> Ascii.eqb "/" c = false.
Proof.
  unfold not_slash. intros H. apply negb_true_iff in H.
  rewrite Ascii.eqb_sym. exact H.
Qed.

(** Up to the first separator that starts with a slash, a run without
    slash is kept. *)
Lemma before_first_run (p run rest : string) :
  str_forall not_slash run = true ->
  before_first (String "/" p) (run +:+ rest) = run +:+ before_first (String "/" p) rest.
Proof.
  induction run as [| c run IH]; intros H; [reflexivity |].
  simpl in H. apply andb_true_iff in H as [Hc Hrun].
  rewrite !append_cons, before_first_cons, strip_prefix_cons, (not_slash_eqb c Hc).
  now rewrite IH.
Qed.

(** Two texts that start with a run without slash and then a slash: the
    one starts with the other only if the runs are the same. *)
Lemma strip_prefix_segment (p x o rest : string) :
  str_forall not_slash p = true -> str_forall not_slash o = true -> o <> p ->
  strip_prefix (p +:+ String "/" x) (o +:+ String "/" rest) = None.
Proof.
  intros Hp Ho Hne.
  destruct (strip_prefix _ _) as [y |] eqn:E; [| reflexivity].
  apply strip_prefix_Some in E. rewrite append_assoc, append_cons in E.
  apply (f_equal (span (Re.CNot "/"))) in E.
  rewrite !span_exact in E by (reflexivity || assumption).
  injection E as E _. contradiction.
Qed.

(** [Ascii.eqb] of two given characters, computed. *)
Ltac eqb_eval :=
  match goal with
  | |- context [Ascii.eqb ?a ?b] =>
      let v := eval vm_compute in (Ascii.eqb a b) in
      match v with
      | true => change (Ascii.eqb a b) with true
      | false => change (Ascii.eqb a b) with false
      end;
      cbv beta iota
  end.

(** One character of the text that is not the start of the separator. *)
Ltac before_first_step :=
  rewrite before_first_cons; repeat (rewrite strip_prefix_cons; eqb_eval);
  match goal with
  | |- String ?c _ = String ?c _ => f_equal
  end.

Lemma before_first_pr_url (o r n : string) :
  segment o -> segment r -> o <> "pull" -> r <> "pull" ->
  before_first "/pull/" (pr_url o r n) = "https://github.com/" +:+ o +:+ "/" +:+ r.
Proof.
  intros [_ Ho] [_ Hr] Hno Hnr. unfold pr_url.
  rewrite !append_cons, !append_nil_l.
  repeat before_first_step.
  rewrite before_first_cons, strip_prefix_cons. eqb_eval.
  rewrite (strip_prefix_segment "pull" "" o) by (reflexivity || assumption).
  f_equal. rewrite before_first_run by assumption. f_equal.
  rewrite before_first_cons, strip_prefix_cons. eqb_eval.
  rewrite (strip_prefix_segment "pull" "" r) by (reflexivity || assumption).
  f_equal. rewrite before_first_run by assumption.
  rewrite <- (append_nil_r r) at 2. f_equal.
Qed.

Lemma remove_all_S (fuel : nat) (old s : string) :
  remove_all (S fuel) old s
  = match strip_prefix old s with
    | Some rest => remove_all fuel old rest
    | None =>
        match s with
        | String c s' => String c (remove_all fuel old s')
        | EmptyString => EmptyString
        end
    end.
Proof. reflexivity. Qed.

Lemma strip_prefix_github_run (s : string) :
  str_forall not_slash s = true -> strip_prefix "https://github.com/" s = None.
Proof.
  intros Hs. destruct (strip_prefix _ s) as [x |] eqn:E; [| reflexivity].
  apply strip_prefix_Some in E. subst s.
  rewrite !append_cons in Hs. discriminate Hs.
Qed.

Lemma strip_prefix_github_segment (u r : string) :
  str_forall not_slash u = true -> str_forall not_slash r = true ->
  strip_prefix "https://github.com/" (u +:+ String "/" r) = None.
Proof.
  intros Hu Hr. destruct (strip_prefix _ _) as [x |] eqn:E; [| reflexivity].
  apply strip_prefix_Some in E.
  change ("https://github.com/" +:+ x) with ("https:" +:+ String "/" ("/github.com/" +:+ x)) in E.
  apply (f_equal (span (Re.CNot "/"))) in E.
  rewrite !span_exact in E by (reflexivity || assumption).
  injection E as _ E. subst r. rewrite append_cons in Hr. discriminate Hr.
Qed.

Lemma remove_all_github_run (fuel : nat) (s : string) :
  str_forall not_slash s = true -> remove_all fuel "https://github.com/" s = s.
Proof.
  revert s. induction fuel as [| f IH]; intros s Hs; [reflexivity |].
  rewrite remove_all_S, strip_prefix_github_run by exact Hs.
  destruct s as [| c s]; [reflexivity |].
  simpl in Hs. apply andb_true_iff in Hs as [_ Hs]. now rewrite IH.
Qed.

Lemma remove_all_github_segment (fuel : nat) (u r : string) :
  str_forall not_slash u = true -> str_forall not_slash r = true ->
  remove_all fuel "https://github.com/" (u +:+ String "/" r) = u +:+ String "/" r.
Proof.
  revert u. induction fuel as [| f IH]; intros u Hu Hr; [reflexivity |].
  rewrite remove_all_S, strip_prefix_github_segment by assumption.
  destruct u as [| c u].
  - rewrite append_nil_l. now rewrite remove_all_github_run.
  - rewrite append_cons. simpl in Hu. apply andb_true_iff in Hu as [_ Hu].
    now rewrite IH.
Qed.

(** X14. For a PR record whose url is https://github.com/o/r/pull/n,
    o and r without a slash and neither of them the word pull, the
    repository named in the user message is o/r. *)
Theorem repo_url_of_pr_url (pr_info : json) (o r n : string) :
  py_get pr_info "url" (JStr "") = Ok (JStr (pr_url o r n)) ->
  segment o -> segment r -> o <> "pull" -> r <> "pull" ->
  repo_url_of pr_info = Ok (o +:+ "/" +:+ r).
Proof.
  intros Hurl Ho Hr Hno Hnr. unfold repo_url_of. rewrite Hurl.
  rewrite before_first_pr_url by assumption.
  rewrite remove_all_S, strip_prefix_append.
  destruct Ho as [_ Ho], Hr as [_ Hr].
  rewrite (remove_all_github_segment _ o r Ho Hr). reflexivity.
Qed.

Lemma repo_url_of_pr_url_witness :
  repo_url_of scenario_pr = Ok ("acme" +:+ "/" +:+ "widgets").
Proof.
  apply (repo_url_of_pr_url scenario_pr "acme" "widgets" "42");
    try reflexivity; try (split; [discriminate | reflexivity]); discriminate.
Defined.

(** An owner called pull is where the form of the URL is lost: the
    text before the first /pull/ is then the host alone. *)
Example repo_url_of_owner_pull :
  repo_url_of (JDict [("url", JStr "https://github.com/pull/widgets/pull/7")])
  = Ok "https://github.com".
Proof. reflexivity. Qed.

(** X15. When every record of the file list is a dict, the files
    of the user message are their names, one a line, in the order of
    the list: for each record what it holds under 'path', or else under
    'filename', or else the word unknown. *)
Theorem files_info_of_names (fl : list json) (names : list string) :
  Forall2 listed_as fl names ->
  files_info_of (JList fl) = Ok (py_join (String Json.newline "") names).
Proof.
  intros H. unfold files_info_of. cbn [py_iter].
  assert (Hmap : map_result file_path fl = Ok (map JStr names)).
  { induction H as [| f p fl names Hf _ IH]; [reflexivity |].
    cbn [map_result map]. rewrite IH.
    destruct Hf as [kv p Hp | kv q Hp Hq | kv Hp Hq];
      unfold file_path, py_get; rewrite Hp; try rewrite Hq;
      destruct (dict_lookup "filename" kv); reflexivity. }
  rewrite Hmap.
  assert (Hall : all_str (map JStr names) = Ok names).
  { clear. induction names as [| p names IH]; [reflexivity |].
    cbn [map all_str]. now rewrite IH. }
  now rewrite Hall.
Qed.

Lemma files_info_of_names_witness :
  files_info_of (JList [JDict [("path", JStr "foo.txt")];
                        JDict [("filename", JStr "bar.txt")];
                        JDict [("additions", JInt 3)]])
  = Ok (py_join (String Json.newline "") ["foo.txt"; "bar.txt"; "unknown"]).
Proof.
  apply files_info_of_names.
  constructor; [apply listed_path; reflexivity |].
  constructor; [apply listed_filename; reflexivity |].
  constructor; [apply listed_unknown; reflexivity | constructor].
Defined.

(** ** main: the runs that end before a review *)




(** A step that raises ends the steps after it. *)
Lemma bind_raise {A B} (m : M A) (f : A -> M B) (st st' : state) (e : exn) :
  m st = (Raise e, st') -> (m ≫= f) st = (Raise e, st').
Proof. intros H. now rewrite bind_run, H. Qed.

Lemma try_except_raise {A} (m : M A) (h : exn -> M A) (st st' : state) (e : exn) :
  m st = (Raise e, st') ->
  try_except m h st = if is_Exception e then h e st' else (Raise e, st').
Proof. intros H. unfold try_except, handle. rewrite H. now destruct (is_Exception e). Qed.









(** ** main: how a run can end *)

Lemma cons_str_Raise (c : ascii) r e : Json.cons_str c r = Raise e -> r = Raise e.
Proof. destruct r as [[x rest] | e']; simpl; congruence. Qed.

Lemma scanstring_raises (s : string) (e : exn) :
  Json.scanstring s = Raise e -> e = JSONDecodeError \/ e = Unmodelled.
Proof.
  remember (String.length s) as n eqn:Hn. revert s Hn.
  induction n as [n IH] using lt_wf_ind. intros s Hn H.
  destruct s as [| c s]; [injection H as <-; now left |]. simpl in Hn, H.
  destruct (Json.code_is c 34); [discriminate |].
  destruct (Json.code_is c 92).
  - destruct s as [| d s1]; [injection H as <-; now left |].
    destruct (Json.code_is d 117).
    + destruct s1 as [| h1 [| h2 [| h3 [| h4 s2]]]];
        try (injection H as <-; now left).
      destruct (Json.hex4 h1 h2 h3 h4) as [k |]; [| injection H as <-; now left].
      destruct (k <? 256)%N; [| injection H as <-; now right].
      apply cons_str_Raise in H.
      apply (IH (String.length s2)) in H; simpl in *; auto; lia.
    + destruct (Json.unescape d); [| injection H as <-; now left].
      apply cons_str_Raise in H.
      apply (IH (String.length s1)) in H; simpl in *; auto; lia.
  - destruct (ord c <? 32)%N; [injection H as <-; now left |].
    apply cons_str_Raise in H.
    apply (IH (String.length s)) in H; simpl in *; auto; lia.
Qed.

(** The parser raises nothing but its own error, besides the mark of
    what is not modelled. *)
Lemma scan_raises (fuel : nat) :
  (forall s e, Json.scan_once fuel s = Raise e -> e = JSONDecodeError \/ e = Unmodelled)
  /\ (forall s acc e, Json.members fuel s acc = Raise e ->
        e = JSONDecodeError \/ e = Unmodelled)
  /\ (forall s acc e, Json.elements fuel s acc = Raise e ->
        e = JSONDecodeError \/ e = Unmodelled).
Proof.
  induction fuel as [| f (IHs & IHm & IHe)];
    [repeat split; intros; simpl in *; right; congruence |].
  repeat split.
  - intros s e H. destruct s as [| c r]; [injection H as <-; now left |]. simpl in H.
    destruct (Json.code_is c 34).
    { destruct (Json.scanstring r) as [[x rest] | e'] eqn:E; [discriminate |].
      injection H as <-. now apply scanstring_raises in E. }
    destruct (Json.code_is c 123).
    { destruct (Json.skip_ws r) as [| c1 r1]; [injection H as <-; now left |].
      destruct (Json.code_is c1 125); [discriminate |].
      destruct (Json.code_is c1 34); [now apply IHm in H | injection H as <-; now left]. }
    destruct (Json.code_is c 91).
    { destruct (Json.skip_ws r) as [| c1 r1] eqn:E; [injection H as <-; now left |].
      destruct (Json.code_is c1 93); [discriminate |]. now apply IHe in H. }
    destruct (Json.scan_constant (String c r)); [discriminate | injection H as <-; now left].
  - intros s acc e H. simpl in H.
    destruct (Json.scanstring s) as [[key s1] | e'] eqn:E;
      [| injection H as <-; now apply scanstring_raises in E].
    destruct (Json.skip_ws s1) as [| c s2]; [injection H as <-; now left |].
    destruct (Json.code_is c 58); [| injection H as <-; now left].
    destruct (Json.scan_once f (Json.skip_ws s2)) as [[v s3] | e'] eqn:E3;
      [| injection H as <-; now apply IHs in E3].
    destruct (Json.skip_ws s3) as [| d s4]; [injection H as <-; now left |].
    destruct (Json.code_is d 125); [discriminate |].
    destruct (Json.code_is d 44); [| injection H as <-; now left].
    destruct (Json.skip_ws s4) as [| q s5]; [injection H as <-; now left |].
    destruct (Json.code_is q 34); [now apply IHm in H | injection H as <-; now left].
  - intros s acc e H. simpl in H.
    destruct (Json.scan_once f s) as [[v s1] | e'] eqn:E1;
      [| injection H as <-; now apply IHs in E1].
    destruct (Json.skip_ws s1) as [| d s2]; [injection H as <-; now left |].
    destruct (Json.code_is d 93); [discriminate |].
    destruct (Json.code_is d 44); [now apply IHe in H | injection H as <-; now left].
Qed.

Lemma loads_raises (s : string) (e : exn) :
  Json.loads s = Raise e -> e = JSONDecodeError \/ e = Unmodelled.
Proof.
  unfold Json.loads, Json.loads_with.
  destruct (Json.scan_once _ _) as [[v rest] | e'] eqn:E.
  - destruct (Json.skip_ws rest); [discriminate |]. intros H. injection H as <-. now left.
  - intros H. injection H as <-. now apply scan_raises in E.
Qed.

Section Raises.

Context (P : exn -> Prop).









End Raises.



(** An exception that is given is one [P] lets through. *)
Ltac raises_known :=
  solve [unfold in_try, ends_run; cbn [is_Exception]; auto].

(** A result that is a [match] on values: every branch that raises. *)
Ltac raises_cases H :=
  repeat match type of H with
         | context [match ?x with _ => _ end] => destruct x eqn:?
         end;
  try discriminate H; injection H as <-; raises_known.

Lemma subscript_raises (v : json) (key : string) (e : exn) :
  subscript v key = Raise e -> in_try e.
Proof. unfold subscript. intros H. raises_cases H. Qed.

Lemma py_get_raises (v : json) (key : string) (d : json) (e : exn) :
  py_get v key d = Raise e -> in_try e.
Proof. unfold py_get. intros H. raises_cases H. Qed.

Lemma py_format_raises (v : json) (e : exn) : py_format v = Raise e -> in_try e.
Proof. unfold py_format. intros H. raises_cases H. Qed.

Lemma get_cache_key_raises (pr_data : PRData) (e : exn) :
  get_cache_key pr_data = Raise e -> in_try e.
Proof.
  unfold get_cache_key.
  destruct (subscript _ _) as [number | e1] eqn:E1;
    [| intros H; injection H as <-; now apply subscript_raises in E1].
  destruct (py_format number) as [n | e2] eqn:E2; [discriminate |].
  intros H. injection H as <-. now apply py_format_raises in E2.
Qed.

Lemma loads_in_try (s : string) (e : exn) : Json.loads s = Raise e -> in_try e.
Proof. intros H. apply loads_raises in H as [-> | ->]; raises_known. Qed.

Lemma parse_pr_url_in_try (url : string) (e : exn) : parse_pr_url url = Raise e -> in_try e.
Proof. intros H. apply parse_pr_url_raises in H as ->. raises_known. Qed.

Lemma file_path_raises (f : json) (e : exn) : file_path f = Raise e -> in_try e.
Proof.
  unfold file_path.
  destruct (py_get f "filename" _) as [other | e1] eqn:E1;
    [apply py_get_raises | intros H; injection H as <-; now apply py_get_raises in E1].
Qed.

Lemma map_file_path_raises (l : list json) (e : exn) :
  map_result file_path l = Raise e -> in_try e.
Proof.
  induction l as [| f l IH]; [discriminate |]. cbn [map_result].
  destruct (file_path f) as [y | e1] eqn:E1;
    [| intros H; injection H as <-; now apply file_path_raises in E1].
  destruct (map_result file_path l) as [ys | e2]; [discriminate |].
  intros H. injection H as <-. now apply IH.
Qed.

Lemma all_str_raises (l : list json) (e : exn) : all_str l = Raise e -> in_try e.
Proof.
  induction l as [| v l IH]; [discriminate |]. cbn [all_str].
  destruct v; try (intros H; injection H as <-; raises_known).
  destruct (all_str l) as [ss | e1]; [discriminate |].
  intros H. injection H as <-. now apply IH.
Qed.

Lemma files_info_of_raises (files : json) (e : exn) :
  files_info_of files = Raise e -> in_try e.
Proof.
  unfold files_info_of.
  destruct (py_iter files) as [l | e1] eqn:E1.
  - destruct (map_result file_path l) as [paths | e2] eqn:E2;
      [| intros H; injection H as <-; now apply map_file_path_raises in E2].
    destruct (all_str paths) as [ss | e3] eqn:E3; [discriminate |].
    intros H. injection H as <-. now apply all_str_raises in E3.
  - intros H. injection H as <-. unfold py_iter in E1. raises_cases E1.
Qed.

Lemma repo_url_of_raises (pr_info : json) (e : exn) :
  repo_url_of pr_info = Raise e -> in_try e.
Proof.
  unfold repo_url_of.
  destruct (py_get pr_info "url" _) as [v | e1] eqn:E1;
    [| intros H; injection H as <-; now apply py_get_raises in E1].
  destruct v; try discriminate; intros H; injection H as <-; raises_known.
Qed.

Lemma user_message_of_raises (pr_data : PRData) (files_info repo_url : string) (e : exn) :
  user_message_of pr_data files_info repo_url = Raise e -> in_try e.
Proof.
  unfold user_message_of. cbv zeta.
  repeat match goal with
         | |- context [match subscript ?v ?k with _ => _ end] =>
             let E := fresh "E" in
             destruct (subscript v k) eqn:E;
             [| intros H; injection H as <-; now apply subscript_raises in E]
         | |- context [match py_format ?v with _ => _ end] =>
             let E := fresh "E" in
             destruct (py_format v) eqn:E;
             [| intros H; injection H as <-; now apply py_format_raises in E]
         | |- context [match py_get ?v ?k ?d with _ => _ end] =>
             let E := fresh "E" in
             destruct (py_get v k d) eqn:E;
             [| intros H; injection H as <-; now apply py_get_raises in E]
         end.
  discriminate.
Qed.

Create HintDb raises.
#[local] Hint Resolve loads_in_try parse_pr_url_in_try py_get_raises get_cache_key_raises
  files_info_of_raises repo_url_of_raises user_message_of_raises : raises.




(** ** main: the files it touches *)

#[global] Instance outside_preorder d0 : PreOrder (outside d0).
Proof.
  split; [intros st d _; reflexivity |].
  intros st1 st2 st3 H12 H23 d Hd. now rewrite H23, H12.
Qed.

Lemma outside_mkdir d0 : respects (outside d0) (mkdir_exist_ok d0).
Proof.
  intros st d Hd. unfold mkdir_exist_ok.
  destruct (is_filename d0); [| reflexivity].
  destruct (fs st !! d0); [reflexivity |]. cbn [snd fs]. now apply lookup_insert_ne.
Qed.

Lemma outside_write_file d0 name content : respects (outside d0) (write_file d0 name content).
Proof.
  intros st d Hd. unfold write_file.
  destruct (is_filename name); [| reflexivity].
  destruct (fs st !! d0); [| reflexivity]. cbn [snd fs]. now apply lookup_insert_ne.
Qed.

Lemma outside_unlink d0 name : respects (outside d0) (unlink d0 name).
Proof.
  intros st d Hd. unfold unlink.
  destruct (fs st !! d0) as [files |]; [| reflexivity].
  destruct (files !! name); [| reflexivity]. cbn [snd fs]. now apply lookup_insert_ne.
Qed.

Ltac outside_prim :=
  idtac;
  lazymatch goal with
  | |- respects _ (emit _) => intros ? ? ?; reflexivity
  | |- respects _ (mkdir_exist_ok _) => apply outside_mkdir
  | |- respects _ (write_file _ _ _) => apply outside_write_file
  | |- respects _ (unlink _ _) => apply outside_unlink
  end.

(** X20. Whatever the run, [main] changes nothing outside the cache
    directory: every other directory of the working directory has the
    files it had, with the content they had. *)
Theorem main_writes_in_cache_dir (W : World) (url : string) (cache dry_run : bool)
    (st : state) (d : string) :
  d <> ".cache" ->
  fs (snd (main W url cache dry_run st)) !! d = fs st !! d.
Proof.
  intros Hd.
  assert (Hinit : respects (outside ".cache") (__init__ W ".cache")) by walk outside_prim.
  assert (Hbody : forall reviewer,
             respects (outside (cache_dir reviewer))
               (try_except
                  ('(owner, repo, pr_number, review) ← obtain_review W reviewer url cache;
                   display review;;
                   finish W reviewer owner repo pr_number review dry_run)
                  on_error)).
  { intros reviewer.
    unfold obtain_review, fetch_stage, lookup_stage, generate_stage, display, finish, on_error.
    walk outside_prim. }
  rewrite main_stages, bind_run.
  destruct (__init__ W ".cache" st) as [[reviewer | e] st1] eqn:Ei.
  - pose proof (init_cache_dir W ".cache" st st1 reviewer Ei) as Hc.
    specialize (Hbody reviewer st1). rewrite Hc in Hbody. rewrite (Hbody d Hd).
    specialize (Hinit st). rewrite Ei in Hinit. now apply Hinit.
  - specialize (Hinit st). rewrite Ei in Hinit. now apply Hinit.
Qed.

Lemma main_writes_in_cache_dir_witness :
  fs (snd (main (scenario_world true true) scenario_url true false
                (State {[ "src" := {[ "a.py" := "pass" ]} ]} []))) !! "src"
  = fs (State {[ "src" := {[ "a.py" := "pass" ]} ]} []) !! "src".
Proof.
  apply (main_writes_in_cache_dir (scenario_world true true) scenario_url true false).
  discriminate.
Defined.

Lemma init_fs (W : World) (d : string) (st : state) :
  fs (snd (__init__ W d st)) = fs (snd (mkdir_exist_ok d st)).
Proof.
  unfold __init__. rewrite bind_run.
  destruct (mkdir_exist_ok d st) as [[[] | e] st1]; [| reflexivity].
  cbn [snd]. destruct (negb _); reflexivity.
Qed.

(** X21. A dry run without cache writes no file: after it the files
    are as [__init__] left them, that is as they were, with the cache
    directory made if it was not there. *)
Theorem main_no_cache_dry_run_files (W : World) (url : string) (st : state) :
  fs (snd (main W url false true st)) = fs (initialised st).
Proof.
  assert (Hbody : forall reviewer,
             respects same_fs
               (try_except
                  ('(owner, repo, pr_number, review) ← obtain_review W reviewer url false;
                   display review;;
                   finish W reviewer owner repo pr_number review true)
                  on_error)).
  { intros reviewer.
    unfold obtain_review, fetch_stage, lookup_stage, generate_stage, display, finish, on_error.
    walk fs_prim. }
  rewrite main_stages, bind_run. unfold initialised. rewrite <- (init_fs W ".cache" st).
  destruct (__init__ W ".cache" st) as [[reviewer | e] st1]; [| reflexivity].
  apply (Hbody reviewer st1).
Qed.

(** ** main: the cache in a run *)

Lemma bind_ok_inv {A B} (m : M A) (f : A -> M B) (st st' : state) (b : B) :
  (m ≫= f) st = (Ok b, st') ->
  exists a st1, m st = (Ok a, st1) /\ f a st1 = (Ok b, st').
Proof.
  rewrite bind_run. destruct (m st) as [[a | e] st1]; [| discriminate].
  intros H. now exists a, st1.
Qed.

(** What [fetch_stage] returns: the parts of the URL and the key of the
    record. *)
Lemma fetch_stage_returns (W : World) (url : string) (st st2 : state)
    (owner repo pr_number : string) (pr_data : PRData) (key : string) :
  fetch_stage W url st = (Ok (owner, repo, pr_number, pr_data, key), st2) ->
  parse_pr_url url = Ok (owner, repo, pr_number) /\ get_cache_key pr_data = Ok key.
Proof.
  unfold fetch_stage. intros H.
  apply bind_ok_inv in H as ([[o r] n] & st1 & Hparse & H).
  unfold lift, ask in Hparse. injection Hparse as Hparse _.
  apply bind_ok_inv in H as ([] & st3 & _ & H).
  apply bind_ok_inv in H as (d & st4 & _ & H).
  apply bind_ok_inv in H as ([] & st5 & _ & H).
  apply bind_ok_inv in H as (k & st6 & Hkey & H).
  unfold lift, ask in Hkey. injection Hkey as Hkey _.
  injection H as -> -> -> -> -> _. now split.
Qed.

(** X22. With caching on, a cache file that is not JSON is no miss: the
    run shows the error and exits with status 1, before any completion
    is asked for and before anything is posted. *)
Theorem main_corrupt_cache (W : World) (url : string) (dry_run : bool) (st : state)
    (reviewer : PRReviewer) (st1 : state) (owner repo pr_number : string)
    (pr_data : PRData) (key : string) (st2 : state) (text : string) :
  __init__ W ".cache" st = (Ok reviewer, st1) ->
  fetch_stage W url st1 = (Ok (owner, repo, pr_number, pr_data, key), st2) ->
  file_content st2 ".cache" (key +:+ ".json") = Some text ->
  Json.loads text = Raise JSONDecodeError ->
  main W url true dry_run st
  = (Raise (SystemExit 1),
     State (fs st2) (log st2 ++ [TaskAdded "Checking cache..."; error_line JSONDecodeError])).
Proof.
  intros Hinit Hfetch Hfile Hloads.
  pose proof (init_cache_dir W ".cache" st st1 reviewer Hinit) as Hdir.
  rewrite main_stages, bind_run, Hinit.
  erewrite try_except_raise; cycle 1.
  { apply bind_raise. unfold obtain_review. rewrite bind_run, Hfetch.
    apply bind_raise. unfold lookup_stage.
    rewrite bind_run. unfold emit at 1. cbv beta iota.
    apply bind_raise. rewrite load_cache_run, Hdir. cbn [fs log].
    unfold file_content in *. cbn [fs]. rewrite Hfile, Hloads. reflexivity. }
  cbn [is_Exception]. unfold on_error, console_print, emit, sys_exit, raise.
  rewrite bind_run. cbn [fs log]. unfold error_line. now rewrite <- app_assoc.
Qed.

Lemma main_corrupt_cache_witness :
  main (scenario_world true true) scenario_url true false scenario_torn
  = (Raise (SystemExit 1),
     State (fs (State (fs scenario_torn) scenario_fetch_events))
           (log (State (fs scenario_torn) scenario_fetch_events)
            ++ [TaskAdded "Checking cache..."; error_line JSONDecodeError])).
Proof.
  apply (main_corrupt_cache (scenario_world true true) scenario_url false scenario_torn
           scenario_self scenario_torn "acme" "widgets" "42" scenario_fetched_data
           scenario_key (State (fs scenario_torn) scenario_fetch_events) "{").
  - vm_compute. reflexivity.
  - vm_compute. reflexivity.
  - vm_compute. reflexivity.
  - vm_compute. reflexivity.
Defined.

Lemma lookup_stage_miss (reviewer : PRReviewer) (key : string) (st : state) :
  file_content st (cache_dir reviewer) (key +:+ ".json") = None ->
  lookup_stage reviewer true key st
  = (Ok JNull,
     State (fs st)
           (log st ++ [TaskAdded "Checking cache..."; TaskUpdated "No cache found"])).
Proof.
  intros Hmiss. unfold lookup_stage.
  rewrite bind_run. unfold emit at 1. rewrite bind_run.
  rewrite load_cache_run. unfold file_content in *. cbn [fs log].
  rewrite Hmiss. cbn [truthy]. rewrite bind_run. unfold emit. cbn [fs log].
  rewrite <- !app_assoc. reflexivity.
Qed.

(** The generation of a review and its saving, when both work. *)
Lemma generate_stage_saves (W : World) (reviewer : PRReviewer) (pr_data : PRData)
    (key text : string) (st st4 : state) (files : gmap string string) :
  is_filename (key +:+ ".json") = true ->
  review_pr W reviewer pr_data (State (fs st) (log st ++ [TaskAdded "Generating AI review..."]))
  = (Ok text, st4) ->
  fs st4 !! cache_dir reviewer = Some files ->
  generate_stage W reviewer true pr_data key JNull st
  = (Ok (JStr text),
     State (<[cache_dir reviewer :=
               <[key +:+ ".json" := Json.dumps_member_indent2 "review" text]> files]> (fs st4))
           (log st4 ++ [TaskUpdated "Review generated"])).
Proof.
  intros Hname Hreview Hfiles. unfold generate_stage. cbn [truthy negb].
  rewrite bind_run. unfold emit at 1. rewrite bind_run, Hreview.
  rewrite bind_run. unfold emit at 1. rewrite bind_run.
  unfold save_cache, write_file. cbn [fs log]. rewrite Hname, Hfiles. reflexivity.
Qed.

(** X23. With caching on, a review that is generated is stored before
    it is displayed: when the key has no file and [review_pr] returns
    a text, the review obtained is that text, and [load_cache] of the
    key then returns it. *)
Theorem obtain_review_saves (W : World) (reviewer : PRReviewer) (url : string)
    (st st2 st4 : state) (owner repo pr_number : string) (pr_data : PRData)
    (key : string) (number : Z) (text : string) :
  fetch_stage W url st = (Ok (owner, repo, pr_number, pr_data, key), st2) ->
  subscript (pr pr_data) "number" = Ok (JInt number) ->
  is_Some (fs st2 !! cache_dir reviewer) ->
  file_content st2 (cache_dir reviewer) (key +:+ ".json") = None ->
  review_pr W reviewer pr_data (State (fs st2) (log st2 ++ miss_events)) = (Ok text, st4) ->
  exists st5,
    obtain_review W reviewer url true st = (Ok (owner, repo, pr_number, JStr text), st5)
    /\ fst (load_cache reviewer key st5) = Ok (JStr text).
Proof.
  intros Hfetch Hnumber [files Hfiles] Hmiss Hreview.
  pose proof (fetch_stage_returns W url st st2 owner repo pr_number pr_data key Hfetch)
    as [_ Hkey].
  assert (Hname : is_filename (key +:+ ".json") = true).
  { apply cache_key_filename. exists number, (diff pr_data).
    rewrite (get_cache_key_format pr_data (JInt number) (str_of_int number) Hnumber eq_refl)
      in Hkey.
    now injection Hkey as <-. }
  pose proof (review_pr_read_only_fs W reviewer pr_data (State (fs st2) (log st2 ++ miss_events)))
    as Hfs.
  rewrite Hreview in Hfs. cbn [snd fs] in Hfs.
  eexists. split.
  - unfold obtain_review. rewrite bind_run, Hfetch, bind_run.
    rewrite (lookup_stage_miss reviewer key st2 Hmiss), bind_run.
    erewrite (generate_stage_saves W reviewer pr_data key text _ st4 files Hname);
      [reflexivity | | now rewrite Hfs].
    cbn [fs log]. rewrite <- app_assoc. exact Hreview.
  - rewrite load_cache_run. unfold file_content. cbn [fs fst].
    rewrite !lookup_insert_eq, loads_dumps_review. reflexivity.
Qed.

Lemma obtain_review_saves_witness :
  exists st5,
    obtain_review (scenario_world true true) scenario_self scenario_url true scenario_ready
    = (Ok ("acme", "widgets", "42", JStr "Looks good to me."), st5)
    /\ fst (load_cache scenario_self scenario_key st5) = Ok (JStr "Looks good to me.").
Proof.
  eapply (obtain_review_saves (scenario_world true true) scenario_self scenario_url
            scenario_ready).
  - vm_compute. reflexivity.
  - vm_compute. reflexivity.
  - vm_compute. eauto.
  - vm_compute. reflexivity.
  - vm_compute. reflexivity.
Defined.

(** ** Posting: the rest of it *)

(** X24. A review that is not a [str], as a cache file can hold one:
    [post_review] makes the temporary file, empty, and the writing
    raises [TypeError] before [gh] is run; the exception is not one
    [post_review] handles. *)
Theorem post_review_not_str (W : World) (self : PRReviewer)
    (owner repo pr_number : string) (review : json) (files : gmap string string)
    (st : state) :
  (forall text, review <> JStr text) ->
  fs st !! cache_dir self = Some files ->
  is_filename ("review_" +:+ pr_number +:+ ".md") = true ->
  post_review W self owner repo pr_number review st
  = (Raise TypeError,
     State (<[cache_dir self := <["review_" +:+ pr_number +:+ ".md" := ""]> files]> (fs st))
           (log st ++ [Print (Text "[cyan]Posting review to GitHub...[/cyan]")])).
Proof.
  intros Hreview Hdir Hname. unfold post_review.
  rewrite bind_run. unfold console_print at 1, emit at 1. cbv beta iota.
  destruct review; try (now exfalso; eapply Hreview);
    rewrite !bind_run; unfold write_file; cbn [fs log]; rewrite Hname, Hdir; reflexivity.
Qed.

Lemma post_review_not_str_witness :
  post_review (scenario_world true true) scenario_self "acme" "widgets" "42" (JInt 5)
              scenario_ready
  = (Raise TypeError,
     State (<[cache_dir scenario_self := <["review_" +:+ "42" +:+ ".md" := ""]> ∅]>
              (fs scenario_ready))
           (log scenario_ready ++ [Print (Text "[cyan]Posting review to GitHub...[/cyan]")])).
Proof.
  apply (post_review_not_str (scenario_world true true) scenario_self "acme" "widgets" "42"
           (JInt 5) ∅ scenario_ready).
  - intros text H. discriminate H.
  - reflexivity.
  - reflexivity.
Defined.



(** ** fetch_pr_data and __init__: what they return *)

(** X26. When [fetch_pr_data] returns a record, it has shown one line
    and run three commands, in this order: [gh pr view] for the PR,
    [gh pr diff], [gh pr view] for the files; each returned 0.  The
    record holds what [json.loads] makes of the first output, the
    second output without the white space at its ends, and what the
    third output holds under 'files', an empty list if it has no such
    key.  No file has changed. *)
Theorem fetch_pr_data_returns (W : World) (owner repo pr_number : string)
    (st st' : state) (pr_data : PRData) :
  fetch_pr_data W owner repo pr_number st = (Ok pr_data, st') ->
  fs st' = fs st
  /\ log st'
     = log st ++ [Print (Text ("[cyan]Fetching PR data for " +:+ owner +:+ "/" +:+ repo
                               +:+ "#" +:+ pr_number +:+ "[/cyan]"));
                  Run (view_argv owner repo pr_number);
                  Run (diff_argv owner repo pr_number);
                  Run (files_argv owner repo pr_number)]
  /\ trimmed (diff pr_data)
  /\ exists s1 s2 p1 p2 p3 files_data,
       gh W s1 (view_argv owner repo pr_number) = Some p1 /\ returncode p1 = 0%Z
       /\ gh W s2 (diff_argv owner repo pr_number) = Some p2 /\ returncode p2 = 0%Z
       /\ gh W st' (files_argv owner repo pr_number) = Some p3 /\ returncode p3 = 0%Z
       /\ Json.loads (py_strip (stdout p1)) = Ok (pr pr_data)
       /\ diff pr_data = py_strip (stdout p2)
       /\ Json.loads (py_strip (stdout p3)) = Ok files_data
       /\ py_get files_data "files" (JList []) = Ok (files pr_data).
Proof.
  unfold fetch_pr_data. intros H.
  apply bind_ok_inv in H as ([] & st0 & Hprint & H).
  unfold console_print, emit in Hprint. injection Hprint as <-.
  apply bind_ok_inv in H as (pr_json & st1 & Hview & H).
  apply run_gh_command_ok in Hview as (-> & p1 & Hgh1 & Hrc1 & ->).
  apply bind_ok_inv in H as (pr_info & st1' & Hpr & H).
  unfold lift, ask in Hpr. injection Hpr as Hpr <-.
  apply bind_ok_inv in H as (diff_text & st2 & Hdiff & H).
  apply run_gh_command_ok in Hdiff as (-> & p2 & Hgh2 & Hrc2 & ->).
  apply bind_ok_inv in H as (files_json & st3 & Hfiles & H).
  apply run_gh_command_ok in Hfiles as (-> & p3 & Hgh3 & Hrc3 & ->).
  apply bind_ok_inv in H as (files_data & st3' & Hfd & H).
  unfold lift, ask in Hfd. injection Hfd as Hfd <-.
  apply bind_ok_inv in H as (fl & st3'' & Hfl & H).
  unfold lift, ask in Hfl. injection Hfl as Hfl <-.
  injection H as <- <-. cbn [fs log diff pr files].
  split; [reflexivity |]. split; [now rewrite <- !app_assoc |].
  split; [apply py_strip_trimmed |].
  eexists _, _, p1, p2, p3, files_data.
  repeat split; eassumption.
Qed.

Lemma fetch_pr_data_returns_witness :
  let st' := State (fs scenario_ready)
                   [Print (Text ("[cyan]Fetching PR data for " +:+ "acme" +:+ "/" +:+ "widgets"
                                 +:+ "#" +:+ "42" +:+ "[/cyan]"));
                    Run (view_argv "acme" "widgets" "42");
                    Run (diff_argv "acme" "widgets" "42");
                    Run (files_argv "acme" "widgets" "42")] in
  fs st' = fs scenario_ready
  /\ log st'
     = log scenario_ready
       ++ [Print (Text ("[cyan]Fetching PR data for " +:+ "acme" +:+ "/" +:+ "widgets"
                        +:+ "#" +:+ "42" +:+ "[/cyan]"));
           Run (view_argv "acme" "widgets" "42");
           Run (diff_argv "acme" "widgets" "42");
           Run (files_argv "acme" "widgets" "42")]
  /\ trimmed (diff scenario_fetched_data)
  /\ exists s1 s2 p1 p2 p3 files_data,
       gh (scenario_world true true) s1 (view_argv "acme" "widgets" "42") = Some p1
       /\ returncode p1 = 0%Z
       /\ gh (scenario_world true true) s2 (diff_argv "acme" "widgets" "42") = Some p2
       /\ returncode p2 = 0%Z
       /\ gh (scenario_world true true) st' (files_argv "acme" "widgets" "42") = Some p3
       /\ returncode p3 = 0%Z
       /\ Json.loads (py_strip (stdout p1)) = Ok (pr scenario_fetched_data)
       /\ diff scenario_fetched_data = py_strip (stdout p2)
       /\ Json.loads (py_strip (stdout p3)) = Ok files_data
       /\ py_get files_data "files" (JList []) = Ok (files scenario_fetched_data).
Proof.
  apply (fetch_pr_data_returns (scenario_world true true) "acme" "widgets" "42"
           scenario_ready).
  vm_compute. reflexivity.
Defined.

(** X27. When [__init__] returns, OPENAI_BASE_URL was set and not
    empty, and is the base URL of the client; the API key of the
    client is OPENAI_API_KEY, or the word dummy when that is not set;
    the cache directory of the reviewer is the one asked for, and
    nothing was shown. *)
Theorem init_returns (W : World) (d : string) (st st' : state) (reviewer : PRReviewer) :
  __init__ W d st = (Ok reviewer, st') ->
  cache_dir reviewer = d
  /\ environ W !! "OPENAI_BASE_URL" = Some (base_url (client reviewer))
  /\ base_url (client reviewer) <> ""
  /\ api_key (client reviewer) = default "dummy" (environ W !! "OPENAI_API_KEY")
  /\ log st' = log st
  /\ is_Some (fs st' !! d).
Proof.
  unfold __init__. rewrite bind_run. intros H.
  pose proof (log_mkdir d st) as Hlog.
  assert (Hdir : is_Some (fs (snd (mkdir_exist_ok d st)) !! d) \/ fst (mkdir_exist_ok d st) <> Ok tt).
  { unfold mkdir_exist_ok. destruct (is_filename d); [left | right; discriminate].
    destruct (fs st !! d) eqn:E; cbn [snd fs]; [now rewrite E |].
    rewrite lookup_insert_eq. eauto. }
  destruct (mkdir_exist_ok d st) as [[[] | e] st1]; [| discriminate].
  cbn [snd fst] in Hlog, Hdir. destruct Hdir as [Hdir | Hdir]; [| contradiction].
  destruct (environ W !! "OPENAI_BASE_URL") as [u |] eqn:Hu; cycle 1.
  { cbn [negb] in H. unfold console_print, emit, sys_exit, raise in H.
    rewrite !bind_run in H. discriminate H. }
  destruct (String.eqb_spec u "") as [-> | Hne].
  { cbn [negb] in H. unfold console_print, emit, sys_exit, raise in H.
    rewrite !bind_run in H. discriminate H. }
  cbn [negb] in H. injection H as <- <-. cbn [cache_dir client base_url api_key default].
  now repeat split.
Qed.

Lemma init_returns_witness :
  cache_dir scenario_self = ".cache"
  /\ environ (scenario_world true true) !! "OPENAI_BASE_URL"
     = Some (base_url (client scenario_self))
  /\ base_url (client scenario_self) <> ""
  /\ api_key (client scenario_self)
     = default "dummy" (environ (scenario_world true true) !! "OPENAI_API_KEY")
  /\ log scenario_ready = log empty_state
  /\ is_Some (fs scenario_ready !! ".cache").
Proof.
  apply (init_returns (scenario_world true true) ".cache" empty_state scenario_ready
           scenario_self).
  vm_compute. reflexivity.
Defined.
